(** * A shallow embedding of gemini_mcp.py

    The server keeps a registry of chat sessions, uploads attached files once
    per session, throttles its requests and reaps idle sessions.  The remote
    model service, the file system, the clocks and the uuid generator are
    outside the program: they are an environment [Env] of oracles, each asked
    at a position of the event log, and every effect of the program on the
    outside is an [Event] of that log.  Log lines written to stderr are not
    modelled (they change no state); the clock readings made only to stamp a
    log line are skipped with them.

    Strings are [string], one [ascii] per character.  Timestamps are whole
    microseconds in [Z]: the resolution of [datetime]; [time.time()], a float
    of seconds, is read at the same resolution. *)

From Stdlib Require Import String Ascii List ZArith Lia Bool Arith.
From Stdlib Require Import DecimalString Decimal.
Import ListNotations.

Open Scope string_scope.
Open Scope list_scope.

(** ** Python strings *)

Definition nl : string := String "010"%char EmptyString.
Definition dquote : string := String "034"%char EmptyString.

(** [str(n)] for a non-negative int. *)
Definition str_of_nat (n : nat) : string :=
  NilEmpty.string_of_uint (Nat.to_uint n).

(** [sub in s]: [sub] occurs in [s] at some position. *)
Fixpoint str_in (sub s : string) : bool :=
  if String.prefix sub s then true
  else match s with
       | EmptyString => false
       | String _ rest => str_in sub rest
       end.

(** ["".join(parts)] *)
Fixpoint join (parts : list string) : string :=
  match parts with
  | [] => ""
  | p :: rest => p ++ join rest
  end.

(** [s[:n]] *)
Definition str_take (n : nat) (s : string) : string := String.substring 0 n s.

(** Truth value of an [Optional[str]]: [None] and the empty string are false. *)
Definition truthy (o : option string) : bool :=
  match o with
  | None => false
  | Some s => negb (String.eqb s "")
  end.

(** Truth value of an [Optional[List[str]]]. *)
Definition truthy_list {A : Type} (o : option (list A)) : bool :=
  match o with
  | None | Some [] => false
  | Some (_ :: _) => true
  end.

(** The value an f-string interpolates for an optional string that the
    program has already tested to be true. *)
Definition str_of (o : option string) : string :=
  match o with
  | None => "None"
  | Some s => s
  end.

(** [os.path.basename]: the text after the last slash. *)
Fixpoint basename (p : string) : string :=
  match p with
  | EmptyString => EmptyString
  | String c rest =>
      if str_in "/" rest then basename rest
      else if Ascii.eqb c "/" then rest
      else p
  end.

(** ** Python dicts with string keys

    A dict keeps its keys in insertion order, and the program iterates over
    them, so a dict is an association list; its keys are pairwise distinct. *)

Module PyDict.
Section Dict.
Context {V : Type}.

Definition dict := list (string * V).

Definition empty : dict := [].

(** [d.get(k)] *)
Fixpoint get (k : string) (d : dict) : option V :=
  match d with
  | [] => None
  | (k', v) :: rest => if String.eqb k k' then Some v else get k rest
  end.

(** [k in d] *)
Definition mem (k : string) (d : dict) : bool :=
  match get k d with Some _ => true | None => false end.

(** [d[k] = v]: a known key keeps its place, a new key goes last. *)
Fixpoint set (k : string) (v : V) (d : dict) : dict :=
  match d with
  | [] => [(k, v)]
  | (k', v') :: rest =>
      if String.eqb k k' then (k', v) :: rest else (k', v') :: set k v rest
  end.

(** [del d[k]].  On an absent key Python raises KeyError; the program
    deletes only keys it has just found in the dict. *)
Fixpoint del (k : string) (d : dict) : dict :=
  match d with
  | [] => []
  | (k', v') :: rest =>
      if String.eqb k k' then rest else (k', v') :: del k rest
  end.

Definition keys (d : dict) : list string := map fst d.
Definition values (d : dict) : list V := map snd d.

(** The invariant of a dict: no key twice. *)
Definition wf (d : dict) : Prop := NoDup (keys d).
End Dict.
Arguments dict V : clear implicits.
End PyDict.

Abbreviation dict := PyDict.dict.

(** ** Data model *)

(** Timestamps and durations, in microseconds. *)
Definition seconds (n : Z) : Z := (n * 1000000)%Z.

Definition SESSION_TTL : Z := 3600.

(** The handle of a remote conversation ([client.chats.create]). *)
Definition Chat := nat.

(** The file object the service returns for an upload or a status query.
    [uploaded_error] is [None] when the object has no [error] attribute. *)
Record UploadedFile := {
  uploaded_name : string;
  uploaded_uri : string;
  uploaded_mime_type : string;
  uploaded_state : string;
  uploaded_error : option string
}.

Record ProcessedFile := {
  file_type : string;
  file_uri : string;
  mime_type : string;
  file_name : string;
  file_path : string;
  gemini_file_id : string
}.

(** [obj_id] is the identity of the Python object: two records stand for the
    same object exactly when they carry the same [obj_id]. *)
Record Session := {
  obj_id : nat;
  session_id : string;
  chat : Chat;
  created : Z;
  last_used : Z;
  message_count : nat;
  problem_description : option string;
  code_context : option string;
  processed_files : dict ProcessedFile
}.

Record GeminiMCPServer := {
  sessions : dict Session;
  last_request_time : Z;
  min_time_between_requests : Z;
  cleanup_task_running : bool;
  next_obj_id : nat
}.

(** [GeminiMCPServer.__init__] *)
Definition new_server : GeminiMCPServer := {|
  sessions := PyDict.empty;
  last_request_time := 0;
  min_time_between_requests := seconds 1;
  cleanup_task_running := false;
  next_obj_id := 0
|}.

(** ** The outside world *)

(** One part of a message sent to a conversation. *)
Inductive ContentPart :=
| Text (s : string)
| FileObject (f : UploadedFile).

Inductive Event :=
| EvTime                                   (* time.time() *)
| EvNow                                    (* datetime.now() *)
| EvSleep (d : Z)                          (* await asyncio.sleep(d) *)
| EvUuid                                   (* uuid.uuid4() *)
| EvExists (path : string)                 (* os.path.exists(path) *)
| EvChatsCreate                            (* client.chats.create(...) *)
| EvFilesUpload (path : string)            (* client.files.upload(file=path) *)
| EvFilesGet (name : string)               (* client.files.get(name=name) *)
| EvFilesDelete (id : string)              (* client.files.delete(id) *)
| EvSendMessage (c : Chat) (content : list ContentPart).

(** The calls that go to the remote service. *)
Definition is_gateway_call (e : Event) : bool :=
  match e with
  | EvChatsCreate | EvFilesUpload _ | EvFilesGet _
  | EvFilesDelete _ | EvSendMessage _ _ => true
  | _ => false
  end.

Definition is_upload (e : Event) : bool :=
  match e with EvFilesUpload _ => true | _ => false end.

Definition is_send (e : Event) : bool :=
  match e with EvSendMessage _ _ => true | _ => false end.

Definition gateway_calls (log : list Event) : list Event :=
  filter is_gateway_call log.

(** A call returns a value or raises an [Exception], kept as its [str(e)]. *)
Inductive result (A : Type) :=
| Ok (a : A)
| Raise (msg : string).
Arguments Ok {A} a.
Arguments Raise {A} msg.

(** The answers of the outside world.  The [nat] is the number of events
    before the call, so an oracle may answer each call differently. *)
Record Env := {
  time_time : nat -> Z;
  datetime_now : nat -> Z;
  uuid4 : nat -> string;
  path_exists : nat -> string -> bool;
  chats_create : nat -> result Chat;
  files_upload : nat -> string -> result UploadedFile;
  files_get : nat -> string -> result UploadedFile;
  files_delete : nat -> string -> result unit;
  send_message : nat -> Chat -> list ContentPart -> result string
}.

(** ** State and exceptions

    A computation runs on the server and the event log; what it did before
    raising stays done. *)

Record St := {
  server : GeminiMCPServer;
  log : list Event
}.

Definition M (A : Type) : Type := St -> result A * St.

Definition ret {A} (a : A) : M A := fun st => (Ok a, st).

Definition raise {A} (msg : string) : M A := fun st => (Raise msg, st).

Definition bind {A B} (m : M A) (k : A -> M B) : M B :=
  fun st =>
    match m st with
    | (Ok a, st') => k a st'
    | (Raise e, st') => (Raise e, st')
    end.

(** [try: m except Exception as e: h e] *)
Definition try_except {A} (m : M A) (h : string -> M A) : M A :=
  fun st =>
    match m st with
    | (Ok a, st') => (Ok a, st')
    | (Raise e, st') => h e st'
    end.

Notation "x <- m ;; k" := (bind m (fun x => k))
  (at level 61, m at next level, right associativity).
Notation "m ;;; k" := (bind m (fun _ => k))
  (at level 61, right associativity).

(** Ask the outside world: the event is logged, the oracle answers at the
    position of the event. *)
Definition ask {A} (ev : Event) (answer : nat -> result A) : M A :=
  fun st =>
    (answer (List.length (log st)),
     {| server := server st; log := log st ++ [ev] |}).

Definition get_server : M GeminiMCPServer := fun st => (Ok (server st), st).

Definition modify_server (f : GeminiMCPServer -> GeminiMCPServer) : M unit :=
  fun st => (Ok tt, {| server := f (server st); log := log st |}).

Definition set_sessions (d : dict Session) (g : GeminiMCPServer) : GeminiMCPServer :=
  {| sessions := d;
     last_request_time := last_request_time g;
     min_time_between_requests := min_time_between_requests g;
     cleanup_task_running := cleanup_task_running g;
     next_obj_id := next_obj_id g |}.

(** An attribute assignment on a session object.  It adds nothing to the
    registry and removes nothing: if the registry holds the object (the
    entry under the [session_id] the object was created with carries its
    [obj_id]), that entry shows the new state of the object; if not, the
    registry is as it was. *)
Definition holds_object (d : dict Session) (s : Session) : bool :=
  match PyDict.get (session_id s) d with
  | Some held => Nat.eqb (obj_id held) (obj_id s)
  | None => false
  end.

Definition store_session (s : Session) : M unit :=
  modify_server (fun g =>
    if holds_object (sessions g) s
    then set_sessions (PyDict.set (session_id s) s (sessions g)) g
    else g).

(** ** Primitive effects *)

Section Program.
Variable E : Env.

Definition now_ : M Z := ask EvNow (fun n => Ok (datetime_now E n)).
Definition time_ : M Z := ask EvTime (fun n => Ok (time_time E n)).
Definition sleep (d : Z) : M unit := ask (EvSleep d) (fun _ => Ok tt).
Definition new_uuid : M string := ask EvUuid (fun n => Ok (uuid4 E n)).
Definition exists_ (path : string) : M bool :=
  ask (EvExists path) (fun n => Ok (path_exists E n path)).
Definition client_chats_create : M Chat :=
  ask EvChatsCreate (chats_create E).
Definition client_files_upload (path : string) : M UploadedFile :=
  ask (EvFilesUpload path) (fun n => files_upload E n path).
Definition client_files_get (name : string) : M UploadedFile :=
  ask (EvFilesGet name) (fun n => files_get E n name).
Definition client_files_delete (id : string) : M unit :=
  ask (EvFilesDelete id) (fun n => files_delete E n id).
Definition chat_send_message (c : Chat) (content : list ContentPart) : M string :=
  ask (EvSendMessage c content) (fun n => send_message E n c content).

(** ** GeminiMCPServer._ensure_cleanup_task_started

    The background task is only started here; its iterations are
    [_cleanup_iteration] below. *)
Definition _ensure_cleanup_task_started : M unit :=
  modify_server (fun g =>
    {| sessions := sessions g;
       last_request_time := last_request_time g;
       min_time_between_requests := min_time_between_requests g;
       cleanup_task_running := true;
       next_obj_id := next_obj_id g |}).

(** ** GeminiMCPServer._rate_limit *)

(** The time to sleep, if any, for a call that reads the clock at [now]. *)
Definition rate_limit_delay (min_time last now : Z) : option Z :=
  let time_since_last := (now - last)%Z in
  if (time_since_last <? min_time)%Z
  then Some (min_time - time_since_last)%Z
  else None.

Definition set_last_request_time (t : Z) (g : GeminiMCPServer) : GeminiMCPServer :=
  {| sessions := sessions g;
     last_request_time := t;
     min_time_between_requests := min_time_between_requests g;
     cleanup_task_running := cleanup_task_running g;
     next_obj_id := next_obj_id g |}.

Definition _rate_limit : M unit :=
  now <- time_ ;;
  g <- get_server ;;
  match rate_limit_delay (min_time_between_requests g) (last_request_time g) now with
  | Some d => sleep d
  | None => ret tt
  end ;;;
  t <- time_ ;;
  modify_server (set_last_request_time t).

(** ** GeminiMCPServer._process_file *)

Definition with_processed_file (path : string) (pf : ProcessedFile) (s : Session) : Session :=
  {| obj_id := obj_id s;
     session_id := session_id s;
     chat := chat s;
     created := created s;
     last_used := last_used s;
     message_count := message_count s;
     problem_description := problem_description s;
     code_context := code_context s;
     processed_files := PyDict.set path pf (processed_files s) |}.

Definition timeout_seconds : nat := 30.

(** The polling loop; [fuel] is [timeout_seconds - wait_time]. *)
Fixpoint wait_for_processing (fuel : nat) (uploaded_file : UploadedFile) : M UploadedFile :=
  match fuel with
  | O => ret uploaded_file
  | S fuel' =>
      if String.eqb (uploaded_state uploaded_file) "PROCESSING"
      then sleep (seconds 1) ;;;
           f <- client_files_get (uploaded_name uploaded_file) ;;
           wait_for_processing fuel' f
      else ret uploaded_file
  end.

(** The mime type guessed from the extension is used in a log line only;
    the record takes the mime type the service reports. *)
Definition _process_file (path : string) (session : Session)
  : M (ProcessedFile * Session) :=
  match PyDict.get path (processed_files session) with
  | Some cached => ret (cached, session)
  | None =>
      found <- exists_ path ;;
      if negb found then raise ("File not found: " ++ path)
      else
        let name := basename path in
        try_except
          (uploaded_file <- client_files_upload path ;;
           uploaded_file <- wait_for_processing timeout_seconds uploaded_file ;;
           if String.eqb (uploaded_state uploaded_file) "PROCESSING"
           then raise ("File processing timeout after "
                       ++ str_of_nat timeout_seconds ++ " seconds")
           else if String.eqb (uploaded_state uploaded_file) "FAILED"
           then raise ("File upload failed: "
                       ++ match uploaded_error uploaded_file with
                          | Some err => err
                          | None => "Unknown error"
                          end)
           else
             let processed_file :=
               {| file_type := "file_data";
                  file_uri := uploaded_uri uploaded_file;
                  mime_type := uploaded_mime_type uploaded_file;
                  file_name := name;
                  file_path := path;
                  gemini_file_id := uploaded_name uploaded_file |} in
             let session' := with_processed_file path processed_file session in
             store_session session' ;;;
             ret (processed_file, session'))
          (fun e => raise ("Failed to process file " ++ path ++ ": " ++ e))
  end.

(** ** GeminiMCPServer._get_or_create_session *)

Definition with_last_used (t : Z) (s : Session) : Session :=
  {| obj_id := obj_id s;
     session_id := session_id s;
     chat := chat s;
     created := created s;
     last_used := t;
     message_count := message_count s;
     problem_description := problem_description s;
     code_context := code_context s;
     processed_files := processed_files s |}.

(** A new object takes the next identity. *)
Definition allocate : M nat :=
  fun st =>
    let g := server st in
    (Ok (next_obj_id g),
     {| server := {| sessions := sessions g;
                     last_request_time := last_request_time g;
                     min_time_between_requests := min_time_between_requests g;
                     cleanup_task_running := cleanup_task_running g;
                     next_obj_id := S (next_obj_id g) |};
        log := log st |}).

Definition _get_or_create_session (id : option string) : M Session :=
  sid <- (if truthy id then ret (str_of id) else new_uuid) ;;
  g <- get_server ;;
  match PyDict.get sid (sessions g) with
  | Some session =>
      t <- now_ ;;
      let session' := with_last_used t session in
      modify_server (fun g => set_sessions (PyDict.set sid session' (sessions g)) g) ;;;
      ret session'
  | None =>
      c <- client_chats_create ;;
      t_created <- now_ ;;
      t_used <- now_ ;;
      o <- allocate ;;
      let session :=
        {| obj_id := o;
           session_id := sid;
           chat := c;
           created := t_created;
           last_used := t_used;
           message_count := 0;
           problem_description := None;
           code_context := None;
           processed_files := PyDict.empty |} in
      modify_server (fun g => set_sessions (PyDict.set sid session (sessions g)) g) ;;;
      ret session
  end.

(** [n] resolutions of the same id in a row, with the sessions returned. *)
Fixpoint resolve_again (n : nat) (id : option string) : M (list Session) :=
  match n with
  | O => ret []
  | S n' =>
      session <- _get_or_create_session id ;;
      rest <- resolve_again n' id ;;
      ret (session :: rest)
  end.

(** ** GeminiMCPServer._cleanup_session_files and _cleanup_sessions *)

(** One delete per file; a delete that raises is logged and counts as done. *)
Fixpoint delete_files (files : list ProcessedFile) : M unit :=
  match files with
  | [] => ret tt
  | file_info :: rest =>
      try_except (client_files_delete (gemini_file_id file_info))
                 (fun _ => ret tt) ;;;
      delete_files rest
  end.

Definition _cleanup_session_files (sid : string) : M unit :=
  g <- get_server ;;
  match PyDict.get sid (sessions g) with
  | None => ret tt
  | Some session => delete_files (PyDict.values (processed_files session))
  end.

Definition del_session (sid : string) : M unit :=
  modify_server (fun g => set_sessions (PyDict.del sid (sessions g)) g).

(** [(now - session.last_used).total_seconds() > SESSION_TTL] *)
Definition is_expired (now : Z) (session : Session) : bool :=
  (seconds SESSION_TTL <? now - last_used session)%Z.

Fixpoint remove_expired (expired_sessions : list string) : M unit :=
  match expired_sessions with
  | [] => ret tt
  | sid :: rest =>
      _cleanup_session_files sid ;;;
      del_session sid ;;;
      remove_expired rest
  end.

(** One turn of the [while True] loop of [_cleanup_sessions]. *)
Definition _cleanup_iteration : M unit :=
  sleep (seconds 300) ;;;
  now <- now_ ;;
  g <- get_server ;;
  let expired_sessions :=
    PyDict.keys (filter (fun kv => is_expired now (snd kv)) (sessions g)) in
  remove_expired expired_sessions.

(** The loop, cut after [n] turns. *)
Fixpoint _cleanup_sessions (n : nat) : M unit :=
  match n with
  | O => ret tt
  | S n' => _cleanup_iteration ;;; _cleanup_sessions n'
  end.

(** ** consult_gemini *)

Record ConsultArgs := {
  specific_question : string;
  arg_session_id : option string;
  arg_problem_description : option string;
  arg_code_context : option string;
  attached_files : option (list string);
  file_descriptions : option (dict string);
  additional_context : option string;
  preferred_approach : string
}.

Definition with_context (pd cc : option string) (s : Session) : Session :=
  {| obj_id := obj_id s;
     session_id := session_id s;
     chat := chat s;
     created := created s;
     last_used := last_used s;
     message_count := message_count s;
     problem_description := pd;
     code_context := cc;
     processed_files := processed_files s |}.

Definition with_message_count (n : nat) (s : Session) : Session :=
  {| obj_id := obj_id s;
     session_id := session_id s;
     chat := chat s;
     created := created s;
     last_used := last_used s;
     message_count := n;
     problem_description := problem_description s;
     code_context := code_context s;
     processed_files := processed_files s |}.

(** [session.message_count += 1] *)
Definition increment_message_count (s : Session) : M Session :=
  let s' := with_message_count (S (message_count s)) s in
  store_session s' ;;; ret s'.

Definition description_of (descriptions : option (dict string)) (path : string) : string :=
  let description :=
    match descriptions with
    | Some d => match PyDict.get path d with Some t => t | None => "" end
    | None => ""
    end in
  if String.eqb description "" then "" else " - " ++ description.

(** The loop over [attached_files]: a file that fails leaves a note and the
    loop goes on. *)
Fixpoint attach_all (descriptions : option (dict string)) (files : list string)
         (session : Session) (context_parts : list string)
  : M (Session * list string) :=
  match files with
  | [] => ret (session, context_parts)
  | path :: rest =>
      r <- try_except
             (x <- _process_file path session ;;
              let file_info := fst x in
              ret (snd x,
                   context_parts
                     ++ [(nl ++ "- " ++ file_name file_info
                             ++ description_of descriptions path)%string]))
             (fun file_error =>
                ret (session,
                     context_parts
                       ++ [(nl ++ "- " ++ path ++ " (failed to upload: "
                               ++ file_error ++ ")")%string])) ;;
      attach_all descriptions rest (fst r) (snd r)
  end.

(** The second loop over [attached_files]: the file objects of the files
    the session holds. *)
Fixpoint uploaded_objects (files : list string) (session : Session)
         (message_content : list ContentPart) : M (list ContentPart) :=
  match files with
  | [] => ret message_content
  | path :: rest =>
      match PyDict.get path (processed_files session) with
      | Some file_info =>
          uploaded_file <- client_files_get (gemini_file_id file_info) ;;
          uploaded_objects rest session (message_content ++ [FileObject uploaded_file])
      | None => uploaded_objects rest session message_content
      end
  end.

Definition files_or_empty (o : option (list string)) : list string :=
  match o with Some l => l | None => [] end.

(** The branch [if session.message_count == 0]. *)
(** The two checks on the arguments of a first exchange: the message of
    the [ValueError] raised, if any. *)
Definition new_session_error (a : ConsultArgs) : option string :=
  if negb (truthy (arg_problem_description a))
  then Some "problem_description is required for new sessions"
  else if negb (truthy (arg_code_context a)) && negb (truthy_list (attached_files a))
  then Some "Either code_context or attached_files are required for new sessions"
  else None.

(** What follows the checks: the context is stored and sent. *)
Definition send_initial_context (a : ConsultArgs) (session : Session) : M Session :=
    let session := with_context (arg_problem_description a) (arg_code_context a) session in
    store_session session ;;;
    let context_parts :=
      [("I'm Claude, an AI assistant, and I need your help with a complex coding problem. Here's the context:"
          ++ nl ++ nl ++ "**Problem Description:**" ++ nl
          ++ str_of (arg_problem_description a))%string] in
    let context_parts :=
      if truthy (arg_code_context a)
      then context_parts
             ++ [(nl ++ "**Code Context:**" ++ nl
                     ++ str_of (arg_code_context a))%string]
      else context_parts in
    r <- (if truthy_list (attached_files a)
          then attach_all (file_descriptions a) (files_or_empty (attached_files a))
                          session
                          (context_parts ++ [(nl ++ "**Attached Files:**")%string])
          else ret (session, context_parts)) ;;
    let session := fst r in
    let context_parts :=
      snd r ++ [(nl ++ nl ++ "Please help me solve this problem. I may have follow-up questions, so please maintain context throughout our conversation.")%string] in
    message_content <-
      uploaded_objects (files_or_empty (attached_files a)) session
                       [Text (join context_parts)] ;;
    chat_send_message (chat session) message_content ;;;
    increment_message_count session.

Definition first_exchange (a : ConsultArgs) (session : Session) : M Session :=
  match new_session_error a with
  | Some e => raise e
  | None => send_initial_context a session
  end.

Definition question_prompt (a : ConsultArgs) : string :=
  let question_parts := [("**Question:** " ++ specific_question a)%string] in
  let question_parts :=
    if truthy (additional_context a)
    then question_parts
           ++ [(nl ++ nl ++ "**Additional Context/Updates:**" ++ nl
                   ++ str_of (additional_context a))%string]
    else question_parts in
  let question_parts :=
    if negb (String.eqb (preferred_approach a) "follow-up")
    then question_parts
           ++ [(nl ++ nl ++ "**Type of Help Needed:** "
                   ++ preferred_approach a)%string]
    else question_parts in
  join question_parts.

Definition reply_text (session : Session) (response_text : string) : string :=
  "**Session ID:** " ++ session_id session ++ nl
    ++ "**Message #" ++ str_of_nat (message_count session) ++ "**" ++ nl ++ nl
    ++ response_text ++ nl ++ nl ++ "---" ++ nl
    ++ "*Use session_id: " ++ dquote ++ session_id session ++ dquote
    ++ " for follow-up questions*".

(** The question itself: what follows the first-exchange branch. *)
Definition ask_question (a : ConsultArgs) (session : Session) : M string :=
  response_text <- chat_send_message (chat session) [Text (question_prompt a)] ;;
  session <- increment_message_count session ;;
  ret (reply_text session response_text).

(** The body of the [try] block. *)
Definition consult_try (a : ConsultArgs) : M string :=
  session <- _get_or_create_session (arg_session_id a) ;;
  session <- (if Nat.eqb (message_count session) 0
              then first_exchange a session
              else ret session) ;;
  ask_question a session.

(** The [except Exception] handler: what becomes of [str(e)]. *)
Definition error_message (e : string) : string :=
  if str_in "RESOURCE_EXHAUSTED" e
  then "Gemini API quota exceeded. Please try again later."
  else if str_in "INVALID_ARGUMENT" e
  then "Request too large. Try reducing code context size."
  else e.

Definition consult_gemini (a : ConsultArgs) : M string :=
  _rate_limit ;;;
  _ensure_cleanup_task_started ;;;
  try_except (consult_try a)
             (fun e => ret ("Error: " ++ error_message e)%string).

(** The state in which the [try] block starts. *)
Definition entry_state (st : St) : St :=
  snd ((_rate_limit ;;; _ensure_cleanup_task_started) st).

(** ** list_sessions *)

(** [datetime.isoformat], a function of the standard library. *)
Variable isoformat : Z -> string.

Definition problem_summary (session : Session) : string :=
  if truthy (problem_description session)
  then str_take 100 (str_of (problem_description session)) ++ "..."
  else "No description".

Definition session_entry (kv : string * Session) : string :=
  let session := snd kv in
  "- **" ++ fst kv ++ "**" ++ nl
    ++ "  Messages: " ++ str_of_nat (message_count session) ++ nl
    ++ "  Created: " ++ isoformat (created session) ++ nl
    ++ "  Last used: " ++ isoformat (last_used session) ++ nl
    ++ "  Files attached: "
    ++ str_of_nat (List.length (processed_files session)) ++ nl
    ++ "  Code context: "
    ++ (if truthy (code_context session) then "Yes" else "No") ++ nl
    ++ "  Problem: " ++ problem_summary session.

Definition sessions_text (d : dict Session) : string :=
  match d with
  | [] => "No active sessions"
  | _ :: _ =>
      "Active sessions:" ++ nl ++ String.concat (nl ++ nl) (map session_entry d)
  end.

Definition list_sessions : M string :=
  g <- get_server ;;
  ret (sessions_text (sessions g)).

(** ** end_session *)

Definition end_session (sid : string) : M string :=
  g <- get_server ;;
  if PyDict.mem sid (sessions g)
  then _cleanup_session_files sid ;;;
       del_session sid ;;;
       ret ("Session " ++ sid ++ " has been ended")%string
  else ret ("Session " ++ sid ++ " not found or already expired")%string.

End Program.

(** ** The rate limiter under the event loop

    asyncio runs one coroutine at a time and switches only at an [await].
    [_rate_limit] has one: the sleep.  A call that need not sleep runs to its
    end in one piece; a call that sleeps runs up to the sleep, and its last
    line runs when the loop resumes it, after any number of pieces of other
    calls. *)

Module EventLoop.

Inductive Task :=
| Pending
| Sleeping (called : nat) (wake : Z)
| Returned (called : nat) (returned : nat) (at_time : Z).

(** [steps] counts the pieces run so far; a task records the piece that
    called it and the piece that returned from it. *)
Record Loop := {
  limiter : GeminiMCPServer;
  clock : Z;
  steps : nat;
  tasks : nat -> Task
}.

Inductive Step :=
| Call (i : nat) (now t : Z)
  (* task i starts and reads the clock at [now]; if it need not sleep it
     reads the clock again at [t] and returns *)
| Resume (i : nat) (t : Z).
  (* the sleep of task i is over; it reads the clock at [t] and returns *)

Definition update (i : nat) (x : Task) (f : nat -> Task) : nat -> Task :=
  fun j => if Nat.eqb j i then x else f j.

(** A piece runs only if the clock has not gone back, and a sleeper is
    resumed only when its time has come. *)
Definition step (L : Loop) (s : Step) : option Loop :=
  match s with
  | Call i now t =>
      match tasks L i with
      | Pending =>
          if (clock L <=? now)%Z then
            match rate_limit_delay (min_time_between_requests (limiter L))
                                   (last_request_time (limiter L)) now with
            | Some d =>
                Some {| limiter := limiter L;
                        clock := now;
                        steps := S (steps L);
                        tasks := update i (Sleeping (steps L) (now + d)) (tasks L) |}
            | None =>
                if (now <=? t)%Z then
                  Some {| limiter := set_last_request_time t (limiter L);
                          clock := t;
                          steps := S (steps L);
                          tasks := update i (Returned (steps L) (steps L) t) (tasks L) |}
                else None
            end
          else None
      | _ => None
      end
  | Resume i t =>
      match tasks L i with
      | Sleeping called wake =>
          if ((clock L <=? t) && (wake <=? t))%Z then
            Some {| limiter := set_last_request_time t (limiter L);
                    clock := t;
                    steps := S (steps L);
                    tasks := update i (Returned called (steps L) t) (tasks L) |}
          else None
      | _ => None
      end
  end.

Fixpoint run (schedule : list Step) (L : Loop) : option Loop :=
  match schedule with
  | [] => Some L
  | s :: rest =>
      match step L s with
      | Some L' => run rest L'
      | None => None
      end
  end.

Definition start (g : GeminiMCPServer) (t0 : Z) : Loop :=
  {| limiter := g; clock := t0; steps := 0; tasks := fun _ => Pending |}.

Definition returned_at (L : Loop) (i : nat) : option Z :=
  match tasks L i with
  | Returned _ _ t => Some t
  | _ => None
  end.

Definition wakes_at (L : Loop) (i : nat) : option Z :=
  match tasks L i with
  | Sleeping _ w => Some w
  | _ => None
  end.

(** Two calls that overlap: task 0 is served at 100 s; task 1 arrives at
    100.25 s and sleeps; task 2 arrives at 100.5 s while task 1 sleeps. *)
Definition overlapping_calls : list Step :=
  [Call 0 100000000 100000000; Call 1 100250000 0; Call 2 100500000 0].

Definition overlapping_returns : list Step :=
  [Resume 1 101000000; Resume 2 101000000].

(** Two calls one after the other. *)
Definition back_to_back : list Step :=
  [Call 0 100000000 100000000; Call 1 100250000 0; Resume 1 101000000].

End EventLoop.

(** ** Sample environments and states *)

Module Examples.

(** Nothing answers: no file is found and every call to the service raises. *)
Definition offline : Env := {|
  time_time := fun n => seconds (Z.of_nat n);
  datetime_now := fun n => seconds (Z.of_nat n);
  uuid4 := fun n => ("uuid-" ++ str_of_nat n)%string;
  path_exists := fun _ _ => false;
  chats_create := fun _ => Raise "503 UNAVAILABLE";
  files_upload := fun _ _ => Raise "503 UNAVAILABLE";
  files_get := fun _ _ => Raise "503 UNAVAILABLE";
  files_delete := fun _ _ => Raise "503 UNAVAILABLE";
  send_message := fun _ _ _ => Raise "503 UNAVAILABLE"
|}.

Definition remote_file (n : nat) (state : string) : UploadedFile := {|
  uploaded_name := ("files/" ++ str_of_nat n)%string;
  uploaded_uri := ("https://files/" ++ str_of_nat n)%string;
  uploaded_mime_type := "text/plain";
  uploaded_state := state;
  uploaded_error := None
|}.

(** Everything answers at once; the clocks advance a second per event. *)
Definition online : Env := {|
  time_time := fun n => seconds (100000 + Z.of_nat n);
  datetime_now := fun n => seconds (100000 + Z.of_nat n);
  uuid4 := fun n => ("uuid-" ++ str_of_nat n)%string;
  path_exists := fun _ _ => true;
  chats_create := fun n => Ok n;
  files_upload := fun n _ => Ok (remote_file n "ACTIVE");
  files_get := fun n _ => Ok (remote_file n "ACTIVE");
  files_delete := fun _ _ => Ok tt;
  send_message := fun _ _ _ => Ok "reply"
|}.

(** As [online], but every upload is reported failed. *)
Definition failing_uploads : Env := {|
  time_time := time_time online;
  datetime_now := datetime_now online;
  uuid4 := uuid4 online;
  path_exists := path_exists online;
  chats_create := chats_create online;
  files_upload := fun n _ => Ok (remote_file n "FAILED");
  files_get := files_get online;
  files_delete := files_delete online;
  send_message := send_message online
|}.



(** As [online], but no message gets through. *)
Definition unreachable : Env := {|
  time_time := time_time online;
  datetime_now := datetime_now online;
  uuid4 := uuid4 online;
  path_exists := path_exists online;
  chats_create := chats_create online;
  files_upload := files_upload online;
  files_get := files_get online;
  files_delete := files_delete online;
  send_message := fun _ _ _ => Raise "503 UNAVAILABLE"
|}.

(** As [online], but the wall clock is set back a second at each reading. *)
Definition rewinding : Env := {|
  time_time := time_time online;
  datetime_now := fun n => seconds (100000 - Z.of_nat n);
  uuid4 := uuid4 online;
  path_exists := path_exists online;
  chats_create := chats_create online;
  files_upload := files_upload online;
  files_get := files_get online;
  files_delete := files_delete online;
  send_message := send_message online
|}.

Definition initial : St := {| server := new_server; log := [] |}.

Definition main_py : ProcessedFile := {|
  file_type := "file_data";
  file_uri := "https://files/7";
  mime_type := "text/x-python";
  file_name := "main.py";
  file_path := "src/main.py";
  gemini_file_id := "files/7"
|}.

Definition util_py : ProcessedFile := {|
  file_type := "file_data";
  file_uri := "https://files/8";
  mime_type := "text/x-python";
  file_name := "util.py";
  file_path := "src/util.py";
  gemini_file_id := "files/8"
|}.

(** A session last used at [t], holding [files]. *)
Definition session_at (o : nat) (sid : string) (t : Z)
           (files : dict ProcessedFile) : Session := {|
  obj_id := o;
  session_id := sid;
  chat := o;
  created := 0;
  last_used := t;
  message_count := 2;
  problem_description := Some "The parser loops forever";
  code_context := Some "def parse(): ...";
  processed_files := files
|}.

Definition with_sessions (d : dict Session) : St :=
  {| server := set_sessions d new_server; log := [] |}.

(** A description of 150 characters. *)
Definition long_description : string :=
  String.concat "" (repeat "0123456789" 15).

(** The arguments of a well-formed first call. *)
Definition first_args : ConsultArgs := {|
  specific_question := "Why does it loop?";
  arg_session_id := Some "s1";
  arg_problem_description := Some "The parser loops forever";
  arg_code_context := Some "def parse(): ...";
  attached_files := None;
  file_descriptions := None;
  additional_context := None;
  preferred_approach := "debug"
|}.

(** A first call under a chosen id that brings nothing else. *)
Definition bare_args : ConsultArgs := {|
  specific_question := "Why does it loop?";
  arg_session_id := Some "s1";
  arg_problem_description := None;
  arg_code_context := None;
  attached_files := None;
  file_descriptions := None;
  additional_context := None;
  preferred_approach := "solution"
|}.

(** A description but neither code nor files. *)
Definition description_only : ConsultArgs := {|
  specific_question := "Why does it loop?";
  arg_session_id := Some "s1";
  arg_problem_description := Some "The parser loops forever";
  arg_code_context := Some "";
  attached_files := Some [];
  file_descriptions := None;
  additional_context := None;
  preferred_approach := "solution"
|}.

Definition no_args : ConsultArgs := {|
  specific_question := "Why does it loop?";
  arg_session_id := None;
  arg_problem_description := None;
  arg_code_context := None;
  attached_files := None;
  file_descriptions := None;
  additional_context := None;
  preferred_approach := "solution"
|}.

End Examples.

(** ** Vocabulary of the statements *)


(** The events of the polling loop. *)
Definition is_poll (e : Event) : bool :=
  match e with
  | EvSleep _ | EvFilesGet _ => true
  | _ => false
  end.

(** The delete calls owed to a session: one per file it holds, in order. *)
Definition session_deletes (session : Session) : list Event :=
  map (fun file_info => EvFilesDelete (gemini_file_id file_info))
      (PyDict.values (processed_files session)).

(** The registry and the delete calls after the keys [ks] have been released
    and deleted one after the other. *)
Fixpoint reaped (ks : list string) (d : dict Session) : dict Session * list Event :=
  match ks with
  | [] => (d, [])
  | k :: rest =>
      let released :=
        match PyDict.get k d with
        | Some session => session_deletes session
        | None => []
        end in
      let r := reaped rest (PyDict.del k d) in
      (fst r, released ++ snd r)
  end.

(** The wall clock never goes back. *)
Definition clock_monotone (E : Env) : Prop :=
  forall i j, i <= j -> (datetime_now E i <= datetime_now E j)%Z.

(** Each session of the list was last used no earlier than the one before
    it, the first no earlier than [prev]. *)
Fixpoint ascending (prev : Z) (l : list Session) : Prop :=
  match l with
  | [] => True
  | s :: rest => (prev <= last_used s)%Z /\ ascending (last_used s) rest
  end.

(** What holds of the event loop after any schedule, for a limiter whose
    spacing is [m]: a call that has returned did so no later than the last
    granted time and the clock; a sleeper wakes, and a call returns, at least
    [m] after every call that had returned before it was called. *)
Record spaced (m : Z) (L : EventLoop.Loop) : Prop := {
  spaced_min :
    min_time_between_requests (EventLoop.limiter L) = m;
  spaced_returned :
    forall i c r t,
      EventLoop.tasks L i = EventLoop.Returned c r t ->
      (t <= last_request_time (EventLoop.limiter L))%Z
      /\ (t <= EventLoop.clock L)%Z
      /\ c <= r /\ r < EventLoop.steps L;
  spaced_sleeping :
    forall j c w,
      EventLoop.tasks L j = EventLoop.Sleeping c w ->
      c < EventLoop.steps L
      /\ forall i ci ri ti,
          EventLoop.tasks L i = EventLoop.Returned ci ri ti ->
          ri < c -> (ti + m <= w)%Z;
  spaced_pairs :
    forall i j ci ri ti cj rj tj,
      EventLoop.tasks L i = EventLoop.Returned ci ri ti ->
      EventLoop.tasks L j = EventLoop.Returned cj rj tj ->
      ri < cj -> (ti + m <= tj)%Z
}.

(** The events of the rate limiter. *)
Definition is_throttle (e : Event) : bool :=
  match e with
  | EvTime | EvSleep _ => true
  | _ => false
  end.

(** The events of a resolution before the registry is looked up, and the key
    it is looked up under: the id given, or a fresh uuid. *)
Definition id_events (id : option string) : list Event :=
  if truthy id then [] else [EvUuid].

Definition resolved_id (E : Env) (id : option string) (st : St) : string :=
  if truthy id then str_of id else uuid4 E (List.length (log st)).

(** Status queries and sleeps, counted apart. *)
Definition is_files_get (e : Event) : bool :=
  match e with EvFilesGet _ => true | _ => false end.

Definition is_sleep (e : Event) : bool :=
  match e with EvSleep _ => true | _ => false end.

Definition is_delete (e : Event) : bool :=
  match e with EvFilesDelete _ => true | _ => false end.

(** The registry as the program keeps it: no key twice, and every session
    under the id it was created with. *)
Definition registry_ok (d : dict Session) : Prop :=
  PyDict.wf d
  /\ forall k s, PyDict.get k d = Some s -> session_id s = k.

(** [s'] is a later state of the object [s]: what a session never loses. *)
Definition same_object (s s' : Session) : Prop :=
  obj_id s' = obj_id s
  /\ session_id s' = session_id s
  /\ chat s' = chat s
  /\ created s' = created s
  /\ message_count s <= message_count s'.

(** From [st] to [st'] only the session under [sid] has changed, and it is
    still the same object. *)
Record evolves (sid : string) (st st' : St) : Prop := {
  evolves_frame :
    forall k, k <> sid ->
      PyDict.get k (sessions (server st')) = PyDict.get k (sessions (server st));
  evolves_session :
    forall s, PyDict.get sid (sessions (server st)) = Some s ->
      exists s', PyDict.get sid (sessions (server st')) = Some s'
                 /\ same_object s s';
  evolves_ok :
    registry_ok (sessions (server st)) -> registry_ok (sessions (server st'))
}.

(** The session a call works on is the one the registry holds under [sid]. *)
Definition in_sync (sid : string) (s : Session) (st : St) : Prop :=
  session_id s = sid /\ PyDict.get sid (sessions (server st)) = Some s.

(** The record [_process_file] makes of a file the service reports ready. *)
Definition record_of (path : string) (uploaded_file : UploadedFile) : ProcessedFile :=
  {| file_type := "file_data";
     file_uri := uploaded_uri uploaded_file;
     mime_type := uploaded_mime_type uploaded_file;
     file_name := basename path;
     file_path := path;
     gemini_file_id := uploaded_name uploaded_file |}.

(** The text of the exception [_process_file] raises for a failure [e] of
    the upload. *)
Definition upload_failure (path e : string) : string :=
  ("Failed to process file " ++ path ++ ": " ++ e)%string.


(** The text of the first message of a call that attaches no file. *)
Definition context_without_files (a : ConsultArgs) : string :=
  join ((if truthy (arg_code_context a)
         then [("I'm Claude, an AI assistant, and I need your help with a complex coding problem. Here's the context:"
                  ++ nl ++ nl ++ "**Problem Description:**" ++ nl
                  ++ str_of (arg_problem_description a))%string]
                ++ [(nl ++ "**Code Context:**" ++ nl
                        ++ str_of (arg_code_context a))%string]
         else [("I'm Claude, an AI assistant, and I need your help with a complex coding problem. Here's the context:"
                  ++ nl ++ nl ++ "**Problem Description:**" ++ nl
                  ++ str_of (arg_problem_description a))%string])
          ++ [(nl ++ nl ++ "Please help me solve this problem. I may have follow-up questions, so please maintain context throughout our conversation.")%string]).

(** * Properties *)

(** ** Strings *)







Example basename_examples :
  basename "src/main.py" = "main.py"
  /\ basename "main.py" = "main.py"
  /\ basename "/a/b/c.txt" = "c.txt"
  /\ basename "dir/" = "".
Proof. repeat split. Qed.

(** ** Dicts *)

Module PyDictFacts.
Import PyDict.
Section Facts.
Context {V : Type}.
Implicit Types (d : dict V) (k : string) (v : V).

Lemma get_set_same k v d : get k (set k v d) = Some v.
Proof.
  induction d as [|[k' v'] d IH]; simpl.
  - now rewrite String.eqb_refl.
  - destruct (String.eqb k k') eqn:Ek; simpl; rewrite Ek; [reflexivity | exact IH].
Qed.

Lemma get_set_other k k' v d : k' <> k -> get k' (set k v d) = get k' d.
Proof.
  intros Hne. induction d as [|[k0 v0] d IH]; simpl.
  - destruct (String.eqb_spec k' k); [contradiction | reflexivity].
  - destruct (String.eqb_spec k k0) as [->|]; simpl.
    + destruct (String.eqb_spec k' k0); [contradiction | reflexivity].
    + destruct (String.eqb k' k0); [reflexivity | exact IH].
Qed.

Lemma get_None_keys k d : get k d = None <-> ~ In k (keys d).
Proof.
  induction d as [|[k' v'] d IH]; simpl.
  - tauto.
  - destruct (String.eqb_spec k k') as [->|Hne].
    + split; [discriminate | intros H; elim H; now left].
    + rewrite IH. split; intros H; [intros [->|]; [now elim Hne | tauto] | tauto].
Qed.

(** Setting a known key changes no key. *)
Lemma keys_set_known k v v0 d : get k d = Some v0 -> keys (set k v d) = keys d.
Proof.
  induction d as [|[k' v'] d IH]; simpl; [discriminate|].
  destruct (String.eqb_spec k k') as [->|]; simpl; intros H.
  - reflexivity.
  - f_equal; auto.
Qed.

(** Setting a new key puts it last. *)
Lemma set_new k v d : get k d = None -> set k v d = d ++ [(k, v)].
Proof.
  induction d as [|[k' v'] d IH]; simpl; [reflexivity|].
  destruct (String.eqb k k'); [discriminate|].
  intros H; f_equal; auto.
Qed.

Lemma wf_set k v d : wf d -> wf (set k v d).
Proof.
  unfold wf. destruct (get k d) as [v0|] eqn:G.
  - now rewrite (keys_set_known k v v0 d G).
  - rewrite (set_new k v d G). unfold keys. rewrite map_app; simpl.
    intros H. apply NoDup_app; [exact H | repeat constructor; simpl; tauto|].
    intros x Hx [<-|[]]. apply get_None_keys in G. now apply G.
Qed.

Lemma keys_del_incl k d x : In x (keys (del k d)) -> In x (keys d).
Proof.
  induction d as [|[k' v'] d IH]; simpl; [tauto|].
  destruct (String.eqb k k'); simpl; tauto.
Qed.

Lemma wf_del k d : wf d -> wf (del k d).
Proof.
  unfold wf. induction d as [|[k' v'] d IH]; simpl; [auto|].
  intros H. inversion H as [|? ? Hn Hd]; subst.
  destruct (String.eqb k k'); simpl; [exact Hd|].
  constructor; [|auto].
  intros Hin. apply Hn. eapply keys_del_incl; eauto.
Qed.

(** Deleting a key that is not the first leaves the first entry. *)
Lemma del_cons_other k k' v d :
  k <> k' -> del k ((k', v) :: d) = (k', v) :: del k d.
Proof.
  intros Hne; simpl. destruct (String.eqb_spec k k'); [contradiction | reflexivity].
Qed.
End Facts.
End PyDictFacts.

(** ** Computations *)

Lemma filter_none {A} (f g : A -> bool) (evs : list A) :
  (forall e, g e = true -> f e = false) ->
  forallb g evs = true -> filter f evs = [].
Proof.
  intros Hfg. induction evs as [|e evs IH]; simpl; [reflexivity|].
  intros H. apply andb_prop in H as [He Hr].
  now rewrite (Hfg e He), IH.
Qed.

Arguments wait_for_processing : simpl never.

Section ProgramFacts.
Variable E : Env.

Lemma wait_for_processing_S fuel uf :
  wait_for_processing E (S fuel) uf
  = if String.eqb (uploaded_state uf) "PROCESSING"
    then sleep (seconds 1) ;;;
         f <- client_files_get E (uploaded_name uf) ;;
         wait_for_processing E fuel f
    else ret uf.
Proof. reflexivity. Qed.

Lemma bind_ok {A B} (m : M A) (k : A -> M B) st a st1 :
  m st = (Ok a, st1) -> bind m k st = k a st1.
Proof. unfold bind. now intros ->. Qed.

(** The polling loop leaves the server alone and only sleeps and asks for
    the status of the file. *)
Lemma wait_for_processing_effect fuel :
  forall uf st r st',
    wait_for_processing E fuel uf st = (r, st') ->
    server st' = server st
    /\ exists evs, log st' = log st ++ evs /\ forallb is_poll evs = true.
Proof.
  induction fuel as [|fuel IH]; intros uf st r st' H.
  - injection H as <- <-. split; [reflexivity|]. exists []. now rewrite app_nil_r.
  - rewrite wait_for_processing_S in H.
    destruct (String.eqb (uploaded_state uf) "PROCESSING").
    + unfold bind, sleep, client_files_get, ask in H; simpl in H.
      destruct (files_get E _ _) as [f|e].
      * apply IH in H as [Hs (evs & Hl & Hp)]; simpl in *.
        split; [exact Hs|].
        exists (EvSleep (seconds 1) :: EvFilesGet (uploaded_name uf) :: evs).
        rewrite Hl, <- !app_assoc. simpl. now rewrite Hp.
      * injection H as <- <-; simpl. split; [reflexivity|].
        exists [EvSleep (seconds 1); EvFilesGet (uploaded_name uf)].
        now rewrite <- app_assoc.
    + injection H as <- <-. split; [reflexivity|]. exists []. now rewrite app_nil_r.
Qed.

(** A path the session holds is answered from the session. *)
Lemma process_file_hit path session cached st :
  PyDict.get path (processed_files session) = Some cached ->
  _process_file E path session st = (Ok (cached, session), st).
Proof. unfold _process_file. now intros ->. Qed.

(** What a successful upload leaves behind. *)
Lemma process_file_miss path session st pf session' st' :
  PyDict.get path (processed_files session) = None ->
  _process_file E path session st = (Ok (pf, session'), st') ->
  session' = with_processed_file path pf session
  /\ server st' = server (snd (store_session session' st))
  /\ exists evs,
      log st' = log st ++ EvExists path :: EvFilesUpload path :: evs
      /\ forallb is_poll evs = true.
Proof.
  unfold _process_file. intros ->.
  unfold bind at 1. unfold exists_, ask; simpl.
  destruct (path_exists E (List.length (log st)) path); simpl; [|discriminate].
  unfold try_except, bind at 1. unfold client_files_upload, ask; simpl.
  destruct (files_upload E (List.length (log st ++ [EvExists path])) path)
    as [uf0|e]; [|discriminate].
  unfold bind at 1.
  match goal with
  | |- context [wait_for_processing E ?n ?u ?s] =>
      destruct (wait_for_processing E n u s) as [[uf|e] st3] eqn:W
  end; [|discriminate].
  apply wait_for_processing_effect in W as [Hs (evs & Hl & Hp)]; simpl in Hs, Hl.
  destruct (String.eqb (uploaded_state uf) "PROCESSING"); [discriminate|].
  destruct (String.eqb (uploaded_state uf) "FAILED"); [discriminate|].
  unfold bind, store_session, modify_server, ret; cbn [server log snd].
  intros H. injection H as <- <- <-; cbn [server log].
  rewrite Hs. split; [reflexivity|]. split; [reflexivity|].
  exists evs. rewrite Hl, <- !app_assoc. now split.
Qed.

End ProgramFacts.

(** ** The file attachment cache *)

(** C10: a path that is already in [session.processed_files] is answered with
    the cached record before anything else happens: whatever the file system
    and the service would say, the call succeeds and leaves the server and
    the event log as they were, so no existence check and no gateway call is
    made, even if the local file is gone. *)
Theorem cached_path_returns_before_any_check
        (E : Env) (path : string) (session : Session)
        (cached : ProcessedFile) (st : St) :
  PyDict.get path (processed_files session) = Some cached ->
  _process_file E path session st = (Ok (cached, session), st)
  /\ log (snd (_process_file E path session st)) = log st.
Proof.
  intros H. rewrite (process_file_hit E path session cached st H). now split.
Qed.

Lemma cached_path_returns_before_any_check_witness :
  let session :=
    Examples.session_at 0 "s1" 0 [("src/main.py", Examples.main_py)] in
  let st := Examples.with_sessions [("s1", session)] in
  path_exists Examples.offline 0 "src/main.py" = false
  /\ _process_file Examples.offline "src/main.py" session st
     = (Ok (Examples.main_py, session), st)
  /\ log (snd (_process_file Examples.offline "src/main.py" session st)) = log st.
Proof.
  intros session st. split; [reflexivity|].
  apply (cached_path_returns_before_any_check
           Examples.offline "src/main.py" session Examples.main_py st).
  reflexivity.
Defined.

(** C3, as the code has it: when the first of two attachments of a path in
    a session returns a record, the second returns the same record and
    changes nothing; the path is uploaded once by the two calls together
    (not at all if the session held it before the first call). *)
Theorem attach_twice_uploads_once
        (E E' : Env) (path : string) (session : Session) (st : St)
        (pf : ProcessedFile) (session' : Session) (st' : St) :
  _process_file E path session st = (Ok (pf, session'), st') ->
  _process_file E' path session' st' = (Ok (pf, session'), st')
  /\ filter is_upload (log st')
     = filter is_upload (log st)
         ++ (if PyDict.mem path (processed_files session)
             then [] else [EvFilesUpload path]).
Proof.
  intros H. unfold PyDict.mem.
  destruct (PyDict.get path (processed_files session)) as [cached|] eqn:G.
  - rewrite (process_file_hit E path session cached st G) in H.
    injection H as <- <- <-.
    split; [now apply process_file_hit | now rewrite app_nil_r].
  - destruct (process_file_miss E path session st pf session' st' G H)
      as (-> & _ & evs & Hl & Hp).
    split.
    + apply process_file_hit. simpl. apply PyDictFacts.get_set_same.
    + rewrite Hl, filter_app. simpl. f_equal. f_equal.
      apply (filter_none is_upload is_poll); [|exact Hp].
      now intros [].
Qed.

Lemma attach_twice_uploads_once_witness :
  let session := Examples.session_at 0 "s1" 0 [] in
  let st := Examples.with_sessions [("s1", session)] in
  exists pf session' st',
    _process_file Examples.online "src/main.py" session st = (Ok (pf, session'), st')
    /\ _process_file Examples.offline "src/main.py" session' st'
       = (Ok (pf, session'), st')
    /\ filter is_upload (log st') = [EvFilesUpload "src/main.py"].
Proof.
  intros session st. eexists _, _, _.
  match goal with
  | |- ?first_call /\ _ => assert (R : first_call) by (vm_compute; reflexivity)
  end.
  split; [exact R|].
  exact (attach_twice_uploads_once
           Examples.online Examples.offline "src/main.py" session st _ _ _ R).
Defined.

(** C3, as stated, fails: an attachment that raises leaves no record in the
    session, so the next attachment of the same path uploads the file
    again.  Here the service reports the upload failed: both attachments
    raise, none returns a record, and the file is uploaded twice. *)
Example failed_attachment_is_retried :
  let session := Examples.session_at 0 "s1" 0 [] in
  let st := Examples.with_sessions [("s1", session)] in
  exists e st1 e' st2,
    _process_file Examples.failing_uploads "src/main.py" session st = (Raise e, st1)
    /\ _process_file Examples.failing_uploads "src/main.py" session st1
       = (Raise e', st2)
    /\ sessions (server st2) = sessions (server st)
    /\ filter is_upload (log st2)
       = [EvFilesUpload "src/main.py"; EvFilesUpload "src/main.py"].
Proof.
  intros session st. eexists _, _, _, _.
  split; [vm_compute; reflexivity|].
  split; [vm_compute; reflexivity|].
  split; reflexivity.
Qed.

(** ** The reaper *)

Section ReaperFacts.
Variable E : Env.

Lemma delete_files_effect files :
  forall st,
    delete_files E files st
    = (Ok tt,
       {| server := server st;
          log := log st
                 ++ map (fun f => EvFilesDelete (gemini_file_id f)) files |}).
Proof.
  induction files as [|f files IH]; intros st; simpl.
  - unfold ret. rewrite app_nil_r. now destruct st.
  - unfold bind at 1, try_except, client_files_delete, ask, ret; simpl.
    destruct (files_delete E _ _) as [[]|e]; rewrite IH; simpl;
      now rewrite <- app_assoc.
Qed.

Lemma cleanup_session_files_effect sid st :
  _cleanup_session_files E sid st
  = (Ok tt,
     {| server := server st;
        log := log st
               ++ match PyDict.get sid (sessions (server st)) with
                  | Some session => session_deletes session
                  | None => []
                  end |}).
Proof.
  unfold _cleanup_session_files, bind, get_server.
  destruct (PyDict.get sid (sessions (server st))) as [session|].
  - apply delete_files_effect.
  - unfold ret. rewrite app_nil_r. now destruct st.
Qed.

Lemma remove_expired_effect ks :
  forall st,
    remove_expired E ks st
    = (Ok tt,
       {| server := set_sessions (fst (reaped ks (sessions (server st)))) (server st);
          log := log st ++ snd (reaped ks (sessions (server st))) |}).
Proof.
  induction ks as [|k ks IH]; intros st; simpl.
  - unfold ret. rewrite app_nil_r. destruct st as [[] ?]; reflexivity.
  - unfold bind at 1. rewrite cleanup_session_files_effect.
    unfold bind at 1, del_session, modify_server.
    rewrite IH; simpl. now rewrite <- app_assoc.
Qed.
End ReaperFacts.

Lemma reaped_skip (k : string) (v : Session) (ks : list string) :
  forall d,
    ~ In k ks ->
    reaped ks ((k, v) :: d) = ((k, v) :: fst (reaped ks d), snd (reaped ks d)).
Proof.
  induction ks as [|k0 ks IH]; intros d Hn; [reflexivity|].
  assert (Hk : k0 <> k) by (intros ->; apply Hn; now left).
  assert (Hr : ~ In k ks) by (intros H; apply Hn; now right).
  cbn [reaped]. rewrite (PyDictFacts.del_cons_other k0 k v d Hk), (IH _ Hr).
  cbn [PyDict.get]. destruct (String.eqb_spec k0 k); [contradiction | reflexivity].
Qed.

Lemma keys_filter_incl {V} (P : string * V -> bool) (d : dict V) (k : string) :
  In k (PyDict.keys (filter P d)) -> In k (PyDict.keys d).
Proof.
  unfold PyDict.keys. rewrite !in_map_iff.
  intros ((k', v) & <- & H). apply filter_In in H as [H _]. now exists (k', v).
Qed.

(** Releasing the chosen sessions one by one leaves the others in place and
    asks once for each file of each chosen session. *)
Lemma reaped_filter (P : string * Session -> bool) (d : dict Session) :
  PyDict.wf d ->
  reaped (PyDict.keys (filter P d)) d
  = (filter (fun kv => negb (P kv)) d,
     flat_map (fun kv => session_deletes (snd kv)) (filter P d)).
Proof.
  unfold PyDict.wf.
  induction d as [|[k v] d IH]; intros Hwf; [reflexivity|].
  inversion Hwf as [|? ? Hn Hd]; subst.
  cbn [filter]. destruct (P (k, v)) eqn:Pk; cbn [negb].
  - cbn [PyDict.keys map fst reaped PyDict.get PyDict.del].
    rewrite String.eqb_refl.
    change (map fst (filter P d)) with (PyDict.keys (filter P d)).
    rewrite (IH Hd). reflexivity.
  - rewrite reaped_skip.
    + now rewrite (IH Hd).
    + intros H. apply Hn. eapply keys_filter_incl; eauto.
Qed.

Lemma get_filter {V} (P : string * V -> bool) (d : dict V) (k : string) (v : V) :
  PyDict.wf d ->
  PyDict.get k d = Some v ->
  PyDict.get k (filter P d) = if P (k, v) then Some v else None.
Proof.
  unfold PyDict.wf.
  induction d as [|[k' v'] d IH]; intros Hwf; [discriminate|].
  inversion Hwf as [|? ? Hn Hd]; subst.
  cbn [PyDict.get filter]. destruct (String.eqb_spec k k') as [->|Hne].
  - intros H. injection H as ->.
    destruct (P (k', v)); cbn [PyDict.get].
    + now rewrite String.eqb_refl.
    + apply PyDictFacts.get_None_keys. intros H. apply Hn.
      eapply keys_filter_incl; eauto.
  - intros H. destruct (P (k', v')); cbn [PyDict.get].
    + destruct (String.eqb_spec k k'); [contradiction | now apply IH].
    + now apply IH.
Qed.

Lemma wf_reaped (ks : list string) :
  forall d, PyDict.wf d -> PyDict.wf (fst (reaped ks d)).
Proof.
  induction ks as [|k ks IH]; intros d Hwf; cbn [reaped fst]; [exact Hwf|].
  apply IH. now apply PyDictFacts.wf_del.
Qed.

(** The reaper keeps the keys of the registry distinct. *)
Lemma cleanup_iteration_keeps_wf (E : Env) (st : St) r st' :
  PyDict.wf (sessions (server st)) ->
  _cleanup_iteration E st = (r, st') ->
  PyDict.wf (sessions (server st')).
Proof.
  intros Hwf. unfold _cleanup_iteration.
  unfold bind at 1, sleep, ask. unfold bind at 1, now_, ask.
  unfold bind at 1, get_server. cbn [server log].
  rewrite remove_expired_effect. intros H. injection H as _ <-.
  cbn [server sessions set_sessions]. now apply wf_reaped.
Qed.

(** C4: one turn of the reaper.  With [now] the clock reading of the turn, a
    session is expired when [now - last_used] exceeds 3600 seconds.  The turn
    removes exactly the expired sessions from the registry, leaves every
    other session as it was and where it was, and sends one delete call for
    each file of each expired session, and no other call. *)
Theorem reaper_turn_removes_expired (E : Env) (st : St) :
  PyDict.wf (sessions (server st)) ->
  let now := datetime_now E (S (List.length (log st))) in
  let idle session := (now - last_used session)%Z in
  let d := sessions (server st) in
  exists st',
    _cleanup_iteration E st = (Ok tt, st')
    /\ sessions (server st')
       = filter (fun kv => negb (seconds 3600 <? idle (snd kv))%Z) d
    /\ log st'
       = log st ++ EvSleep (seconds 300) :: EvNow
           :: flat_map (fun kv => session_deletes (snd kv))
                       (filter (fun kv => (seconds 3600 <? idle (snd kv))%Z) d)
    /\ forall sid session,
        PyDict.get sid d = Some session ->
        PyDict.get sid (sessions (server st'))
        = if (seconds 3600 <? idle session)%Z then None else Some session.
Proof.
  intros Hwf now idle d.
  unfold _cleanup_iteration.
  unfold bind at 1, sleep, ask. unfold bind at 1, now_, ask.
  unfold bind at 1, get_server. cbn [server log].
  rewrite remove_expired_effect. cbn [server log].
  rewrite length_app, Nat.add_1_r.
  fold now. fold d.
  change (fun kv : string * Session => is_expired now (snd kv))
    with (fun kv : string * Session => (seconds 3600 <? idle (snd kv))%Z).
  rewrite (reaped_filter _ d Hwf). cbn [fst snd].
  eexists. split; [reflexivity|]. cbn [server log sessions set_sessions].
  split; [reflexivity|]. split.
  - rewrite <- !app_assoc. reflexivity.
  - intros sid session G.
    rewrite (get_filter _ d sid session Hwf G). cbn [snd].
    now destruct (seconds 3600 <? idle session)%Z.
Qed.

Lemma reaper_turn_removes_expired_witness :
  let old :=
    Examples.session_at 0 "old" (seconds 90000)
      [("src/main.py", Examples.main_py); ("src/util.py", Examples.util_py)] in
  let fresh := Examples.session_at 1 "fresh" (seconds 99000) [] in
  let st := Examples.with_sessions [("old", old); ("fresh", fresh)] in
  PyDict.wf (sessions (server st))
  /\ exists st',
      _cleanup_iteration Examples.online st = (Ok tt, st')
      /\ sessions (server st') = [("fresh", fresh)]
      /\ log st' = [EvSleep (seconds 300); EvNow;
                    EvFilesDelete "files/7"; EvFilesDelete "files/8"].
Proof.
  intros old fresh st.
  assert (Hwf : PyDict.wf (sessions (server st))).
  { repeat constructor; simpl; intuition discriminate. }
  split; [exact Hwf|].
  destruct (reaper_turn_removes_expired Examples.online st Hwf)
    as (st' & Hrun & Hsessions & Hlog & _).
  exists st'. split; [exact Hrun|]. split; [exact Hsessions | exact Hlog].
Defined.

(** ** Session resolution *)

Lemma last_cons {A} (a d : A) (l : list A) :
  List.last (a :: l) d = List.last l a.
Proof.
  revert a d. induction l as [|b l IH]; intros a d; [reflexivity|].
  change (List.last (a :: b :: l) d) with (List.last (b :: l) d).
  now rewrite (IH b d), (IH b a).
Qed.

Lemma gateway_calls_app (l evs : list Event) :
  gateway_calls (l ++ evs) = gateway_calls l ++ gateway_calls evs.
Proof. apply filter_app. Qed.

Section ResolutionFacts.
Variable E : Env.

(** A known id: the clock is read once and the session found is stamped. *)
Lemma resolve_known sid st session :
  sid <> "" ->
  PyDict.get sid (sessions (server st)) = Some session ->
  let session' := with_last_used (datetime_now E (List.length (log st))) session in
  _get_or_create_session E (Some sid) st
  = (Ok session',
     {| server := set_sessions (PyDict.set sid session' (sessions (server st)))
                               (server st);
        log := log st ++ [EvNow] |}).
Proof.
  intros Hne G. unfold _get_or_create_session.
  assert (T : truthy (Some sid) = true).
  { simpl. destruct (String.eqb_spec sid ""); [contradiction | reflexivity]. }
  rewrite T. unfold bind at 1, ret. cbn [str_of].
  unfold bind at 1, get_server. rewrite G.
  reflexivity.
Qed.

(** An unknown id: the conversation is created first, then the session. *)
Lemma resolve_unknown sid st :
  sid <> "" ->
  PyDict.get sid (sessions (server st)) = None ->
  let n := List.length (log st) in
  _get_or_create_session E (Some sid) st
  = match chats_create E n with
    | Raise e =>
        (Raise e, {| server := server st; log := log st ++ [EvChatsCreate] |})
    | Ok c =>
        let session :=
          {| obj_id := next_obj_id (server st);
             session_id := sid;
             chat := c;
             created := datetime_now E (S n);
             last_used := datetime_now E (S (S n));
             message_count := 0;
             problem_description := None;
             code_context := None;
             processed_files := PyDict.empty |} in
        (Ok session,
         {| server :=
              {| sessions := PyDict.set sid session (sessions (server st));
                 last_request_time := last_request_time (server st);
                 min_time_between_requests := min_time_between_requests (server st);
                 cleanup_task_running := cleanup_task_running (server st);
                 next_obj_id := S (next_obj_id (server st)) |};
            log := log st ++ [EvChatsCreate; EvNow; EvNow] |})
    end.
Proof.
  intros Hne G n. unfold _get_or_create_session.
  assert (T : truthy (Some sid) = true).
  { simpl. destruct (String.eqb_spec sid ""); [contradiction | reflexivity]. }
  rewrite T. unfold bind at 1, ret. cbn [str_of].
  unfold bind at 1, get_server. rewrite G.
  unfold bind at 1, client_chats_create, ask. fold n.
  destruct (chats_create E n) as [c|e]; [|reflexivity].
  unfold bind, now_, ask, allocate, modify_server, ret, set_sessions; cbn.
  rewrite !length_app, <- !app_assoc. cbn.
  rewrite !Nat.add_1_r. reflexivity.
Qed.

(** After a resolution that returned, the registry holds the session
    returned, stamped with a clock reading of the past. *)
Lemma resolve_registers sid st session st' :
  sid <> "" ->
  _get_or_create_session E (Some sid) st = (Ok session, st') ->
  PyDict.get sid (sessions (server st')) = Some session
  /\ exists k, k < List.length (log st')
            /\ last_used session = datetime_now E k.
Proof.
  intros Hne H.
  destruct (PyDict.get sid (sessions (server st))) as [s|] eqn:G.
  - rewrite (resolve_known sid st s Hne G) in H. injection H as <- <-.
    cbn. split; [apply PyDictFacts.get_set_same|].
    exists (List.length (log st)). rewrite length_app; cbn. split; [lia | reflexivity].
  - rewrite (resolve_unknown sid st Hne G) in H.
    destruct (chats_create E (List.length (log st))) as [c|e]; [|discriminate].
    injection H as <- <-. cbn. split; [apply PyDictFacts.get_set_same|].
    exists (S (S (List.length (log st)))). rewrite length_app; cbn. split; [lia | reflexivity].
Qed.

Lemma resolve_again_known sid (Hne : sid <> "") (Hclock : clock_monotone E) n :
  forall st s0,
    PyDict.get sid (sessions (server st)) = Some s0 ->
    (forall k, List.length (log st) <= k -> (last_used s0 <= datetime_now E k)%Z) ->
    exists later st',
      resolve_again E n (Some sid) st = (Ok later, st')
      /\ List.length later = n
      /\ Forall (fun s => obj_id s = obj_id s0
                         /\ s = with_last_used (last_used s) s0) later
      /\ ascending (last_used s0) later
      /\ PyDict.get sid (sessions (server st')) = Some (List.last later s0)
      /\ PyDict.keys (sessions (server st')) = PyDict.keys (sessions (server st))
      /\ next_obj_id (server st') = next_obj_id (server st)
      /\ gateway_calls (log st') = gateway_calls (log st).
Proof.
  induction n as [|n IH]; intros st s0 G Hpast.
  - exists [], st. cbn. repeat split; auto.
  - cbn [resolve_again]. unfold bind at 1.
    rewrite (resolve_known sid st s0 Hne G).
    set (s1 := with_last_used (datetime_now E (List.length (log st))) s0).
    set (st1 := {| server := _; log := _ |}).
    destruct (IH st1 s1) as (later & st' & Hrun & Hlen & Hall & Hasc & Hget & Hkeys & Hobj & Hgw).
    + cbn. apply PyDictFacts.get_set_same.
    + intros k Hk. cbn in Hk. rewrite length_app in Hk; cbn in Hk.
      cbn. apply Hclock. lia.
    + exists (s1 :: later), st'. unfold bind. rewrite Hrun. unfold ret.
      split; [reflexivity|]. split; [cbn; now rewrite Hlen|].
      split; [|split; [|split; [|split; [|split]]]].
      * constructor; [now split|].
        eapply Forall_impl; [|exact Hall]. cbn. intros s [Ho Hs].
        split; [exact Ho|].
        transitivity (with_last_used (last_used s) s1); [exact Hs | reflexivity].
      * cbn [ascending]. split; [apply Hpast; lia | exact Hasc].
      * rewrite Hget. now rewrite last_cons.
      * rewrite Hkeys. cbn. eapply PyDictFacts.keys_set_known; eauto.
      * rewrite Hobj. reflexivity.
      * rewrite Hgw. cbn. rewrite gateway_calls_app. cbn. now rewrite app_nil_r.
Qed.
End ResolutionFacts.

Lemma set_unchanged {V} (k : string) (v : V) (d : dict V) :
  PyDict.get k d = Some v -> PyDict.set k v d = d.
Proof.
  induction d as [|[k' v'] d IH]; cbn; [discriminate|].
  destruct (String.eqb_spec k k') as [->|].
  - intros H. now injection H as ->.
  - intros H. now rewrite IH.
Qed.

Lemma set_twice {V} (k : string) (v v' : V) (d : dict V) :
  PyDict.set k v (PyDict.set k v' d) = PyDict.set k v d.
Proof.
  induction d as [|[k0 v0] d IH]; cbn.
  - now rewrite String.eqb_refl.
  - destruct (String.eqb k k0) eqn:Ek; cbn; rewrite Ek; [reflexivity|].
    now rewrite IH.
Qed.

Lemma gateway_calls_clock_readings (n : nat) :
  gateway_calls (repeat EvNow n) = [].
Proof. induction n as [|n IH]; [reflexivity | exact IH]. Qed.

(** Further resolutions of a registered id, exactly: each reads the clock
    once and stamps the session with the reading. *)
Lemma resolve_again_exact (E : Env) (sid : string) (Hne : sid <> "") (n : nat) :
  forall st s0,
    PyDict.get sid (sessions (server st)) = Some s0 ->
    exists later st',
      resolve_again E n (Some sid) st = (Ok later, st')
      /\ later = map (fun i => with_last_used
                                 (datetime_now E (List.length (log st) + i)) s0)
                     (seq 0 n)
      /\ server st'
         = set_sessions (PyDict.set sid (List.last later s0) (sessions (server st)))
                        (server st)
      /\ log st' = log st ++ repeat EvNow n.
Proof.
  induction n as [|n IH]; intros st s0 G.
  - exists [], st. cbn. unfold ret. split; [reflexivity|]. split; [reflexivity|].
    rewrite (set_unchanged sid s0 _ G), app_nil_r.
    split; [now destruct (server st) | reflexivity].
  - cbn [resolve_again]. unfold bind at 1.
    rewrite (resolve_known E sid st s0 Hne G). cbv zeta.
    set (s1 := with_last_used (datetime_now E (List.length (log st))) s0).
    set (st1 := {| server := _; log := _ |}).
    destruct (IH st1 s1) as (later & st' & Hrun & Hlater & Hserver & Hlog);
      [cbn; apply PyDictFacts.get_set_same|].
    exists (s1 :: later), st'. unfold bind. rewrite Hrun. unfold ret.
    split; [reflexivity|]. split; [|split].
    + rewrite Hlater. cbn [seq map]. f_equal.
      * unfold s1. now rewrite Nat.add_0_r.
      * rewrite <- seq_shift, map_map. apply map_ext. intros i.
        unfold st1, s1. cbn [log]. rewrite length_app. cbn [List.length].
        replace (List.length (log st) + 1 + i) with (List.length (log st) + S i)
          by lia.
        reflexivity.
    + rewrite Hserver, last_cons. unfold st1. cbn [server sessions set_sessions].
      now rewrite set_twice.
    + rewrite Hlog. unfold st1. cbn [log]. now rewrite <- app_assoc.
Qed.

(** C7, as the code has it: after a resolution of a non-empty id has
    returned a session, every further resolution of that id returns the same
    object with [last_used] set to the reading of the wall clock made at
    that resolution, and with every other field unchanged.  The registry
    keeps its keys and shows the session as last returned; no object is
    made, and the further resolutions do nothing but read the clock, once
    each: no conversation is created.  The stamps never decrease when the
    wall clock never goes back. *)
Theorem resolve_same_id_returns_same_session
        (E : Env) (sid : string) (n : nat) (st : St) (s0 : Session) (st0 : St) :
  sid <> "" ->
  _get_or_create_session E (Some sid) st = (Ok s0, st0) ->
  exists later st',
    resolve_again E n (Some sid) st0 = (Ok later, st')
    /\ List.length later = n
    /\ later = map (fun i => with_last_used
                               (datetime_now E (List.length (log st0) + i)) s0)
                   (seq 0 n)
    /\ Forall (fun s => obj_id s = obj_id s0
                       /\ s = with_last_used (last_used s) s0) later
    /\ map last_used later
       = map (fun i => datetime_now E (List.length (log st0) + i)) (seq 0 n)
    /\ (clock_monotone E -> ascending (last_used s0) later)
    /\ sessions (server st')
       = PyDict.set sid (List.last later s0) (sessions (server st0))
    /\ PyDict.get sid (sessions (server st')) = Some (List.last later s0)
    /\ PyDict.keys (sessions (server st')) = PyDict.keys (sessions (server st0))
    /\ next_obj_id (server st') = next_obj_id (server st0)
    /\ log st' = log st0 ++ repeat EvNow n
    /\ gateway_calls (log st') = gateway_calls (log st0).
Proof.
  intros Hne H.
  destruct (resolve_registers E sid st s0 st0 Hne H) as (G & k & Hk & Hlast).
  destruct (resolve_again_exact E sid Hne n st0 s0 G)
    as (later & st' & Hrun & Hlater & Hserver & Hlog).
  exists later, st'. split; [exact Hrun|].
  split; [now rewrite Hlater, length_map, length_seq|].
  split; [exact Hlater|]. split.
  { rewrite Hlater. apply Forall_forall. intros s Hs.
    apply in_map_iff in Hs as (i & <- & _). now split. }
  split; [rewrite Hlater, map_map; reflexivity|]. split.
  { intros Hclock.
    destruct (resolve_again_known E sid Hne Hclock n st0 s0 G)
      as (later2 & st2 & Hrun2 & _ & _ & Hasc & _).
    - intros j Hj. rewrite Hlast. apply Hclock. lia.
    - rewrite Hrun in Hrun2. injection Hrun2 as <- _. exact Hasc. }
  rewrite Hserver. cbn [sessions set_sessions next_obj_id].
  split; [reflexivity|]. split; [apply PyDictFacts.get_set_same|].
  split; [eapply PyDictFacts.keys_set_known; eauto|].
  split; [reflexivity|]. split; [exact Hlog|].
  rewrite Hlog, gateway_calls_app, gateway_calls_clock_readings. apply app_nil_r.
Qed.

Lemma resolve_same_id_returns_same_session_witness :
  "s1" <> ""
  /\ clock_monotone Examples.online
  /\ exists s0 st0,
      _get_or_create_session Examples.online (Some "s1") Examples.initial
      = (Ok s0, st0)
      /\ exists later st',
          resolve_again Examples.online 2 (Some "s1") st0 = (Ok later, st')
          /\ later = [with_last_used (seconds 100003) s0;
                      with_last_used (seconds 100004) s0]
          /\ ascending (last_used s0) later
          /\ sessions (server st') = [("s1", with_last_used (seconds 100004) s0)]
          /\ next_obj_id (server st') = next_obj_id (server st0)
          /\ log st' = log st0 ++ [EvNow; EvNow]
          /\ gateway_calls (log st') = gateway_calls (log st0).
Proof.
  assert (Hne : "s1" <> "") by discriminate.
  assert (Hclock : clock_monotone Examples.online).
  { intros i j Hij. unfold Examples.online, datetime_now, seconds. lia. }
  split; [exact Hne|]. split; [exact Hclock|].
  eexists _, _.
  match goal with
  | |- ?first /\ _ => assert (R : first) by (vm_compute; reflexivity)
  end.
  split; [exact R|].
  destruct (resolve_same_id_returns_same_session
              Examples.online "s1" 2 Examples.initial _ _ Hne R)
    as (later & st' & H1 & _ & H3 & _ & _ & H6 & H7 & _ & _ & H10 & H11 & H12).
  exists later, st'. split; [exact H1|]. split; [exact H3|].
  split; [exact (H6 Hclock)|]. split; [rewrite H7, H3; reflexivity|].
  split; [exact H10|]. split; [exact H11 | exact H12].
Defined.

(** C7, as stated, fails twice over.  The empty string is an id that counts
    as absent: two resolutions with it create two sessions, under two
    uuids.  And the stamp is a reading of the wall clock: when the clock is
    set back between two resolutions, the second stamp is the smaller. *)
Lemma same_id_resolutions_can_differ :
  (exists s1 st1 s2 st2,
      _get_or_create_session Examples.online (Some "") Examples.initial
      = (Ok s1, st1)
      /\ _get_or_create_session Examples.online (Some "") st1 = (Ok s2, st2)
      /\ obj_id s2 <> obj_id s1
      /\ session_id s2 <> session_id s1
      /\ List.length (sessions (server st2)) = 2
      /\ gateway_calls (log st2) = [EvChatsCreate; EvChatsCreate])
  /\ (exists s0 st0 s1 st1,
         _get_or_create_session Examples.rewinding (Some "s1") Examples.initial
         = (Ok s0, st0)
         /\ _get_or_create_session Examples.rewinding (Some "s1") st0 = (Ok s1, st1)
         /\ obj_id s1 = obj_id s0
         /\ (last_used s1 < last_used s0)%Z).
Proof.
  split.
  - eexists _, _, _, _.
    split; [vm_compute; reflexivity|]. split; [vm_compute; reflexivity|].
    split; [discriminate|]. split; [discriminate|]. split; reflexivity.
  - eexists _, _, _, _.
    split; [vm_compute; reflexivity|]. split; [vm_compute; reflexivity|].
    split; reflexivity.
Qed.

(** ** The rate limiter *)

Module EventLoopFacts.
Import EventLoop.

Lemma spaced_start (g : GeminiMCPServer) (t0 : Z) :
spaced (min_time_between_requests g) (start g t0).
Proof. constructor; cbn; try reflexivity; intros; discriminate. Qed.

Lemma update_same i x f : update i x f i = x.
Proof. unfold update. now rewrite Nat.eqb_refl. Qed.

Lemma update_other i j x f : j <> i -> update i x f j = f j.
Proof. unfold update. intros H. now destruct (Nat.eqb_spec j i). Qed.

Ltac task_cases i :=
repeat match goal with
       | H : update i _ _ ?k = _ |- _ =>
           destruct (Nat.eq_dec k i) as [->|?];
           [rewrite update_same in H | rewrite update_other in H by assumption]
       end.

Ltac old_facts I :=
repeat match goal with
       | H : tasks _ _ = Returned _ _ _ |- _ =>
           pose proof (spaced_returned _ _ I _ _ _ _ H); revert H
       | H : tasks _ _ = Sleeping _ _ |- _ =>
           pose proof (spaced_sleeping _ _ I _ _ _ H); revert H
       end; intros.

Lemma spaced_step (m : Z) (L L' : Loop) (s : Step) :
spaced m L -> step L s = Some L' -> spaced m L'.
Proof.
intros I H. pose proof (spaced_min _ _ I) as Hm.
destruct s as [i now t | i t]; cbn [step] in H.
- destruct (tasks L i) eqn:Ti; try discriminate.
  destruct (Z.leb_spec (clock L) now) as [Hc|]; [|discriminate].
  unfold rate_limit_delay in H. rewrite Hm in H.
  destruct (Z.ltb_spec (now - last_request_time (limiter L)) m) as [Hd|Hd].
  + injection H as <-. constructor; cbn [limiter clock steps tasks].
    * exact Hm.
    * intros k c r t0 Hk. task_cases i; [discriminate|].
      old_facts I. lia.
    * intros j c w Hj. task_cases i.
      -- injection Hj as <- <-. split; [lia|].
         intros k ck rk tk Hk Hlt. task_cases i; [discriminate|].
         old_facts I. lia.
      -- destruct (spaced_sleeping _ _ I _ _ _ Hj) as [Hlt Hall].
         split; [lia|].
         intros k ck rk tk Hk. task_cases i; [discriminate|]. eauto.
    * intros a b ca ra ta cb rb tb Ha Hb. task_cases i; try discriminate.
      eapply (spaced_pairs _ _ I); eauto.
  + destruct (Z.leb_spec now t) as [Ht|]; [|discriminate].
    injection H as <-. constructor; cbn [limiter clock steps tasks set_last_request_time
                                         last_request_time min_time_between_requests].
    * exact Hm.
    * intros k c r t0 Hk. task_cases i.
      -- injection Hk as <- <- <-. lia.
      -- old_facts I. lia.
    * intros j c w Hj. task_cases i; [discriminate|].
      destruct (spaced_sleeping _ _ I _ _ _ Hj) as [Hlt Hall].
      split; [lia|].
      intros k ck rk tk Hk. task_cases i.
      -- injection Hk as <- <- <-. lia.
      -- eauto.
    * intros a b ca ra ta cb rb tb Ha Hb. task_cases i.
      -- injection Ha as <- <- <-. injection Hb as <- <- <-. lia.
      -- injection Hb as <- <- <-. old_facts I. lia.
      -- injection Ha as <- <- <-. old_facts I. lia.
      -- eapply (spaced_pairs _ _ I); eauto.
- destruct (tasks L i) as [|called wake|] eqn:Ti; try discriminate.
  destruct (Z.leb_spec (clock L) t) as [Hc|]; [|discriminate].
  destruct (Z.leb_spec wake t) as [Hw|]; [|discriminate].
  cbn [andb] in H. injection H as <-.
  destruct (spaced_sleeping _ _ I _ _ _ Ti) as [Hcalled Hwake].
  constructor; cbn [limiter clock steps tasks set_last_request_time
                    last_request_time min_time_between_requests].
  + exact Hm.
  + intros k c r t0 Hk. task_cases i.
    * injection Hk as <- <- <-. lia.
    * old_facts I. lia.
  + intros j c w Hj. task_cases i; [discriminate|].
    destruct (spaced_sleeping _ _ I _ _ _ Hj) as [Hlt Hall].
    split; [lia|].
    intros k ck rk tk Hk. task_cases i.
    * injection Hk as <- <- <-. lia.
    * eauto.
  + intros a b ca ra ta cb rb tb Ha Hb. task_cases i.
    * injection Ha as <- <- <-. injection Hb as <- <- <-. lia.
    * injection Hb as <- <- <-. intros Hlt.
      specialize (Hwake _ _ _ _ Ha Hlt). lia.
    * injection Ha as <- <- <-. old_facts I. lia.
    * eapply (spaced_pairs _ _ I); eauto.
Qed.

Lemma spaced_run (m : Z) (schedule : list Step) :
forall L L', spaced m L -> run schedule L = Some L' -> spaced m L'.
Proof.
induction schedule as [|s schedule IH]; intros L L' I H; cbn [run] in H.
- now injection H as <-.
- destruct (step L s) as [L1|] eqn:S1; [|discriminate].
  eapply IH; [|exact H]. eapply spaced_step; eauto.
Qed.

End EventLoopFacts.

(** C2, as the code has it: acquisitions that do not overlap are spaced.
    Whatever else the event loop runs in between, a call that starts after
    another call has returned returns at least one second after it.  (Calls
    that overlap during a sleep are not kept apart: the last granted time is
    read before the sleep and written after it.) *)
Theorem rate_limit_spaces_successive_calls
        (schedule : list EventLoop.Step) (t0 : Z) (L : EventLoop.Loop)
        (i j ci ri cj rj : nat) (ti tj : Z) :
  EventLoop.run schedule (EventLoop.start new_server t0) = Some L ->
  EventLoop.tasks L i = EventLoop.Returned ci ri ti ->
  EventLoop.tasks L j = EventLoop.Returned cj rj tj ->
  ri < cj ->
  (ti + seconds 1 <= tj)%Z.
Proof.
  intros Hrun Hi Hj Hlt.
  assert (I : spaced (seconds 1) L).
  { eapply EventLoopFacts.spaced_run; [|exact Hrun].
    apply (EventLoopFacts.spaced_start new_server t0). }
  exact (spaced_pairs _ _ I _ _ _ _ _ _ _ _ Hi Hj Hlt).
Qed.

Lemma rate_limit_spaces_successive_calls_witness :
  exists L,
    EventLoop.run EventLoop.back_to_back (EventLoop.start new_server 0) = Some L
    /\ EventLoop.tasks L 0 = EventLoop.Returned 0 0 100000000
    /\ EventLoop.tasks L 1 = EventLoop.Returned 1 2 101000000
    /\ (100000000 + seconds 1 <= 101000000)%Z.
Proof.
  eexists.
  match goal with
  | |- ?r /\ _ => assert (R : r) by reflexivity
  end.
  split; [exact R|]. split; [reflexivity|]. split; [reflexivity|].
  exact (rate_limit_spaces_successive_calls
           EventLoop.back_to_back 0 _ 0 1 0 0 1 2 100000000 101000000
           R eq_refl eq_refl (le_n 1)).
Defined.

(** C2, as stated, fails: two calls that overlap read the same last granted
    time, wake at the same moment and both return then. *)
Lemma overlapping_calls_return_together :
  exists L1 L,
    EventLoop.run EventLoop.overlapping_calls (EventLoop.start new_server 0) = Some L1
    /\ last_request_time (EventLoop.limiter L1) = 100000000%Z
    /\ EventLoop.wakes_at L1 1 = Some 101000000%Z
    /\ EventLoop.wakes_at L1 2 = Some 101000000%Z
    /\ EventLoop.run EventLoop.overlapping_returns L1 = Some L
    /\ EventLoop.returned_at L 1 = Some 101000000%Z
    /\ EventLoop.returned_at L 2 = Some 101000000%Z
    /\ ~ (101000000 + seconds 1 <= 101000000)%Z.
Proof.
  eexists _, _.
  split; [reflexivity|]. split; [reflexivity|]. split; [reflexivity|].
  split; [reflexivity|]. split; [reflexivity|]. split; [reflexivity|].
  split; [reflexivity|]. unfold seconds. lia.
Qed.

(** ** consult_gemini *)

Section ConsultFacts.
Variable E : Env.

(** The rate limiter only reads the clock, sleeps and notes the time. *)
Lemma rate_limit_effect st :
  exists evs t,
    _rate_limit E st
    = (Ok tt, {| server := set_last_request_time t (server st);
                 log := log st ++ evs |})
    /\ forallb is_throttle evs = true.
Proof.
  unfold _rate_limit. unfold bind at 1, time_, ask. unfold bind at 1, get_server.
  cbn [server log].
  destruct (rate_limit_delay _ _ _) as [d|].
  - exists [EvTime; EvSleep d; EvTime]. eexists. split; [|reflexivity].
    unfold bind, sleep, ask, modify_server; cbn [server log].
    rewrite <- !app_assoc. reflexivity.
  - exists [EvTime; EvTime]. eexists. split; [|reflexivity].
    unfold bind, ret, ask, modify_server; cbn [server log].
    rewrite <- !app_assoc. reflexivity.
Qed.

Lemma entry_state_effect st :
  sessions (server (entry_state E st)) = sessions (server st)
  /\ next_obj_id (server (entry_state E st)) = next_obj_id (server st)
  /\ exists evs, log (entry_state E st) = log st ++ evs
                 /\ forallb is_throttle evs = true.
Proof.
  unfold entry_state, bind.
  destruct (rate_limit_effect st) as (evs & t & -> & Hevs).
  unfold _ensure_cleanup_task_started, modify_server; cbn.
  split; [reflexivity|]. split; [reflexivity|]. exists evs. now split.
Qed.

Lemma consult_gemini_entry a st :
  consult_gemini E a st
  = try_except (consult_try E a)
               (fun e => ret ("Error: " ++ error_message e)%string)
               (entry_state E st).
Proof.
  unfold consult_gemini, entry_state. unfold bind.
  destruct (rate_limit_effect st) as (evs & t & -> & _).
  reflexivity.
Qed.

Lemma throttle_not_gateway evs :
  forallb is_throttle evs = true -> gateway_calls evs = [].
Proof.
  apply (filter_none is_gateway_call is_throttle). now intros [].
Qed.

Lemma entry_state_gateway_calls st :
  gateway_calls (log (entry_state E st)) = gateway_calls (log st).
Proof.
  destruct (entry_state_effect st) as (_ & _ & evs & -> & Hevs).
  rewrite gateway_calls_app, (throttle_not_gateway evs Hevs). apply app_nil_r.
Qed.

(** A resolution, whatever the id given. *)
Lemma resolve_effect id st :
  let sid := resolved_id E id st in
  let before := log st ++ id_events id in
  let n := List.length before in
  _get_or_create_session E id st
  = match PyDict.get sid (sessions (server st)) with
    | Some found =>
        let session := with_last_used (datetime_now E n) found in
        (Ok session,
         {| server := set_sessions (PyDict.set sid session (sessions (server st)))
                                   (server st);
            log := before ++ [EvNow] |})
    | None =>
        match chats_create E n with
        | Raise e =>
            (Raise e, {| server := server st; log := before ++ [EvChatsCreate] |})
        | Ok c =>
            let session :=
              {| obj_id := next_obj_id (server st);
                 session_id := sid;
                 chat := c;
                 created := datetime_now E (S n);
                 last_used := datetime_now E (S (S n));
                 message_count := 0;
                 problem_description := None;
                 code_context := None;
                 processed_files := PyDict.empty |} in
            (Ok session,
             {| server :=
                  {| sessions := PyDict.set sid session (sessions (server st));
                     last_request_time := last_request_time (server st);
                     min_time_between_requests :=
                       min_time_between_requests (server st);
                     cleanup_task_running := cleanup_task_running (server st);
                     next_obj_id := S (next_obj_id (server st)) |};
                log := before ++ [EvChatsCreate; EvNow; EvNow] |})
        end
    end.
Proof.
  intros sid before n. subst sid before n.
  unfold _get_or_create_session, resolved_id, id_events.
  destruct st as [g l]. cbn [server log].
  destruct (truthy id).
  - unfold bind at 1, ret. unfold bind at 1, get_server. cbn [server log].
    rewrite app_nil_r.
    destruct (PyDict.get (str_of id) (sessions g)) as [found|]; [reflexivity|].
    unfold bind at 1, client_chats_create, ask. cbn [server log].
    destruct (chats_create E (List.length l)) as [c|e]; [|reflexivity].
    unfold bind, now_, ask, allocate, modify_server, ret, set_sessions; cbn.
    rewrite !length_app, <- !app_assoc. cbn. rewrite !Nat.add_1_r. reflexivity.
  - unfold bind at 1, new_uuid, ask. cbn [server log].
    unfold bind at 1, get_server. cbn [server log].
    destruct (PyDict.get (uuid4 E (List.length l)) (sessions g)) as [found|];
      [unfold bind, now_, ask, modify_server, ret; cbn; reflexivity|].
    unfold bind at 1, client_chats_create, ask. cbn [server log].
    destruct (chats_create E (List.length (l ++ [EvUuid]))) as [c|e]; [|reflexivity].
    unfold bind, now_, ask, allocate, modify_server, ret, set_sessions; cbn.
    rewrite !length_app, <- !app_assoc. cbn. rewrite !Nat.add_1_r. reflexivity.
Qed.

(** A resolution that returns makes no call to the service but, for an id
    the registry does not hold, the creation of the conversation. *)
Lemma resolve_gateway_calls id st session st' :
  _get_or_create_session E id st = (Ok session, st') ->
  gateway_calls (log st')
  = gateway_calls (log st)
      ++ (if PyDict.mem (resolved_id E id st) (sessions (server st))
          then [] else [EvChatsCreate]).
Proof.
  rewrite resolve_effect. unfold PyDict.mem.
  assert (Hid : gateway_calls (id_events id) = []).
  { unfold id_events. now destruct (truthy id). }
  destruct (PyDict.get _ _) as [found|].
  - intros H. injection H as <- <-. cbn [log].
    rewrite !gateway_calls_app, Hid. cbn. now rewrite !app_nil_r.
  - destruct (chats_create E _) as [c|e]; [|discriminate].
    intros H. injection H as <- <-. cbn [log].
    rewrite !gateway_calls_app, Hid. cbn. now rewrite !app_nil_r.
Qed.

(** A resolution keeps the keys of the registry distinct. *)
Lemma resolve_keeps_wf id st r st' :
  PyDict.wf (sessions (server st)) ->
  _get_or_create_session E id st = (r, st') ->
  PyDict.wf (sessions (server st')).
Proof.
  intros Hwf. rewrite resolve_effect.
  destruct (PyDict.get _ _) as [found|].
  - intros H. injection H as _ <-. cbn. now apply PyDictFacts.wf_set.
  - destruct (chats_create E _) as [c|e]; intros H; injection H as _ <-; cbn;
      [now apply PyDictFacts.wf_set | exact Hwf].
Qed.

(** The two messages of the checks go through the handler unchanged. *)
Lemma new_session_error_message a e :
  new_session_error a = Some e -> error_message e = e.
Proof.
  unfold new_session_error.
  destruct (negb (truthy (arg_problem_description a))).
  - intros H; injection H as <-. reflexivity.
  - destruct (negb (truthy (arg_code_context a))
              && negb (truthy_list (attached_files a))); [|discriminate].
    intros H; injection H as <-. reflexivity.
Qed.

(** A first exchange that fails a check: the call ends there. *)
Lemma consult_rejected a st session st1 e :
  _get_or_create_session E (arg_session_id a) (entry_state E st) = (Ok session, st1) ->
  message_count session = 0 ->
  new_session_error a = Some e ->
  consult_gemini E a st = (Ok ("Error: " ++ e)%string, st1).
Proof.
  intros Hres Hcount Herr.
  rewrite consult_gemini_entry. unfold try_except, consult_try.
  rewrite (bind_ok _ _ _ _ _ Hres). rewrite Hcount. cbn [Nat.eqb].
  unfold first_exchange. rewrite Herr. unfold bind, raise, ret.
  now rewrite (new_session_error_message a e Herr).
Qed.

(** A first exchange that passes the checks goes on to send the context. *)
Lemma consult_accepted a st session st1 :
  _get_or_create_session E (arg_session_id a) (entry_state E st) = (Ok session, st1) ->
  message_count session = 0 ->
  new_session_error a = None ->
  consult_gemini E a st
  = try_except (session' <- send_initial_context E a session ;;
                ask_question E a session')
               (fun e => ret ("Error: " ++ error_message e)%string)
               st1.
Proof.
  intros Hres Hcount Herr.
  rewrite consult_gemini_entry. unfold try_except at 1, consult_try.
  rewrite (bind_ok _ _ _ _ _ Hres). rewrite Hcount. cbn [Nat.eqb].
  unfold first_exchange. rewrite Herr. reflexivity.
Qed.



End ConsultFacts.

(** C1, as the code has it: a call that resolves to a session with no message
    yet and brings no problem description returns the validation error
    right after the resolution.  No file is uploaded and no message is sent;
    the one call to the service that may have been made is the creation of
    the conversation, made by the resolution exactly when the registry did
    not hold the id. *)
Theorem new_session_without_description
        (E : Env) (a : ConsultArgs) (st : St) (session : Session) (st1 : St) :
  truthy (arg_problem_description a) = false ->
  _get_or_create_session E (arg_session_id a) (entry_state E st) = (Ok session, st1) ->
  message_count session = 0 ->
  consult_gemini E a st
  = (Ok "Error: problem_description is required for new sessions", st1)
  /\ filter is_upload (log st1) = filter is_upload (log st)
  /\ filter is_send (log st1) = filter is_send (log st)
  /\ gateway_calls (log st1)
     = gateway_calls (log st)
         ++ (if PyDict.mem (resolved_id E (arg_session_id a) (entry_state E st))
                           (sessions (server st))
             then [] else [EvChatsCreate]).
Proof.
  intros Hpd Hres Hcount.
  assert (Herr : new_session_error a
                 = Some "problem_description is required for new sessions").
  { unfold new_session_error. now rewrite Hpd. }
  assert (Hgw : gateway_calls (log st1)
                = gateway_calls (log st)
                    ++ (if PyDict.mem (resolved_id E (arg_session_id a) (entry_state E st))
                                      (sessions (server st))
                        then [] else [EvChatsCreate])).
  { rewrite (resolve_gateway_calls E _ _ _ _ Hres), entry_state_gateway_calls.
    now destruct (entry_state_effect E st) as (-> & _). }
  split; [exact (consult_rejected E a st session st1 _ Hres Hcount Herr)|].
  assert (Hsub : forall f : Event -> bool,
             (forall e, f e = true -> is_gateway_call e = true) ->
             f EvChatsCreate = false ->
             filter f (log st1) = filter f (log st)).
  { intros f Hf Hc.
    assert (Hff : forall l, filter f l = filter f (gateway_calls l)).
    { induction l as [|e l IH]; [reflexivity|]. unfold gateway_calls in *. cbn.
      destruct (is_gateway_call e) eqn:Ge; cbn.
      - now rewrite IH.
      - destruct (f e) eqn:Fe; [|exact IH]. apply Hf in Fe. congruence. }
    rewrite (Hff (log st1)), (Hff (log st)), Hgw, filter_app.
    destruct (PyDict.mem _ _); cbn; [|rewrite Hc]; apply app_nil_r. }
  split; [apply Hsub; [now intros []|reflexivity]|].
  split; [apply Hsub; [now intros []|reflexivity] | exact Hgw].
Qed.

Lemma new_session_without_description_witness :
  truthy (arg_problem_description Examples.bare_args) = false
  /\ exists session st1,
      _get_or_create_session Examples.online (arg_session_id Examples.bare_args)
                             (entry_state Examples.online Examples.initial)
      = (Ok session, st1)
      /\ message_count session = 0
      /\ consult_gemini Examples.online Examples.bare_args Examples.initial
         = (Ok "Error: problem_description is required for new sessions", st1)
      /\ filter is_upload (log st1) = []
      /\ filter is_send (log st1) = []
      /\ gateway_calls (log st1) = [EvChatsCreate].
Proof.
  split; [reflexivity|]. eexists _, _.
  match goal with
  | |- ?resolution /\ _ => assert (R : resolution) by (vm_compute; reflexivity)
  end.
  split; [exact R|]. split; [reflexivity|].
  exact (new_session_without_description
           Examples.online Examples.bare_args Examples.initial _ _
           eq_refl R eq_refl).
Defined.

(** C1, as stated, fails: on an empty registry a call without a problem
    description returns the validation error, but the conversation has been
    created by then. *)
Lemma conversation_created_before_validation :
  sessions (server Examples.initial) = []
  /\ arg_problem_description Examples.no_args = None
  /\ exists st',
      consult_gemini Examples.online Examples.no_args Examples.initial
      = (Ok "Error: problem_description is required for new sessions", st')
      /\ gateway_calls (log Examples.initial) = []
      /\ gateway_calls (log st') = [EvChatsCreate]
      /\ gateway_calls (log st') <> gateway_calls (log Examples.initial).
Proof.
  split; [reflexivity|]. split; [reflexivity|]. eexists.
  split; [vm_compute; reflexivity|].
  split; [reflexivity|]. split; [reflexivity|]. discriminate.
Qed.

(** C5: a call that resolves to a session with no message yet fails with the
    validation error about the problem description when that is empty or
    absent, and with the one about code and files when the description is
    there but code context and attached files are both empty or absent; in
    both cases it ends right after the resolution.  When the description is
    there with code or files, neither check raises and the call goes on to
    store and send the context. *)
Theorem first_exchange_requirements
        (E : Env) (a : ConsultArgs) (st : St) (session : Session) (st1 : St) :
  _get_or_create_session E (arg_session_id a) (entry_state E st) = (Ok session, st1) ->
  message_count session = 0 ->
  (truthy (arg_problem_description a) = false ->
   consult_gemini E a st
   = (Ok "Error: problem_description is required for new sessions", st1))
  /\ (truthy (arg_problem_description a) = true ->
      truthy (arg_code_context a) = false ->
      truthy_list (attached_files a) = false ->
      consult_gemini E a st
      = (Ok "Error: Either code_context or attached_files are required for new sessions",
         st1))
  /\ (truthy (arg_problem_description a) = true ->
      truthy (arg_code_context a) = true \/ truthy_list (attached_files a) = true ->
      new_session_error a = None
      /\ first_exchange E a session = send_initial_context E a session
      /\ consult_gemini E a st
         = try_except (session' <- send_initial_context E a session ;;
                       ask_question E a session')
                      (fun e => ret ("Error: " ++ error_message e)%string)
                      st1).
Proof.
  intros Hres Hcount. split; [|split].
  - intros Hpd.
    apply (consult_rejected E a st session st1 _ Hres Hcount).
    unfold new_session_error. now rewrite Hpd.
  - intros Hpd Hcc Hfiles.
    apply (consult_rejected E a st session st1 _ Hres Hcount).
    unfold new_session_error. now rewrite Hpd, Hcc, Hfiles.
  - intros Hpd Hany.
    assert (Herr : new_session_error a = None).
    { unfold new_session_error. rewrite Hpd. cbn [negb].
      destruct Hany as [-> | ->]; cbn [negb andb]; [reflexivity|].
      now rewrite andb_false_r. }
    split; [exact Herr|]. split.
    + unfold first_exchange. now rewrite Herr.
    + exact (consult_accepted E a st session st1 Hres Hcount Herr).
Qed.

Lemma first_exchange_requirements_witness :
  exists session st1,
    _get_or_create_session Examples.online
                           (arg_session_id Examples.description_only)
                           (entry_state Examples.online Examples.initial)
    = (Ok session, st1)
    /\ message_count session = 0
    /\ truthy (arg_problem_description Examples.description_only) = true
    /\ truthy (arg_code_context Examples.description_only) = false
    /\ truthy_list (attached_files Examples.description_only) = false
    /\ consult_gemini Examples.online Examples.description_only Examples.initial
       = (Ok "Error: Either code_context or attached_files are required for new sessions",
          st1).
Proof.
  eexists _, _.
  match goal with
  | |- ?resolution /\ _ => assert (R : resolution) by (vm_compute; reflexivity)
  end.
  split; [exact R|]. split; [reflexivity|].
  split; [reflexivity|]. split; [reflexivity|]. split; [reflexivity|].
  exact (proj1 (proj2 (first_exchange_requirements
                         Examples.online Examples.description_only
                         Examples.initial _ _ R eq_refl))
               eq_refl eq_refl eq_refl).
Defined.



(** C9: a call under an id the registry does not hold that fails a check of
    the first exchange leaves the session registered under that id, with its
    conversation created, no message counted, no problem description, no
    code context and no file.  A later call under the same id that fails a
    check gets the validation error again, on the same session and without
    any call to the service. *)
Theorem failed_validation_keeps_session
        (E : Env) (a : ConsultArgs) (sid e : string) (st : St) (c : Chat) :
  arg_session_id a = Some sid ->
  sid <> "" ->
  PyDict.get sid (sessions (server st)) = None ->
  new_session_error a = Some e ->
  chats_create E (List.length (log (entry_state E st))) = Ok c ->
  exists st' session,
    consult_gemini E a st = (Ok ("Error: " ++ e)%string, st')
    /\ PyDict.get sid (sessions (server st')) = Some session
    /\ session_id session = sid
    /\ chat session = c
    /\ message_count session = 0
    /\ problem_description session = None
    /\ code_context session = None
    /\ processed_files session = []
    /\ gateway_calls (log st') = gateway_calls (log st) ++ [EvChatsCreate]
    /\ forall E' a' e',
        arg_session_id a' = Some sid ->
        new_session_error a' = Some e' ->
        exists st'' session',
          consult_gemini E' a' st' = (Ok ("Error: " ++ e')%string, st'')
          /\ PyDict.get sid (sessions (server st'')) = Some session'
          /\ obj_id session' = obj_id session
          /\ chat session' = c
          /\ message_count session' = 0
          /\ problem_description session' = None
          /\ code_context session' = None
          /\ gateway_calls (log st'') = gateway_calls (log st').
Proof.
  intros Hid Hne Hnew Herr Hchat.
  assert (T : truthy (Some sid) = true).
  { cbn. destruct (String.eqb_spec sid ""); [contradiction | reflexivity]. }
  destruct (entry_state_effect E st) as (Hsess & _).
  pose proof (resolve_effect E (Some sid) (entry_state E st)) as R.
  unfold resolved_id, id_events in R. rewrite T in R. cbn [str_of] in R.
  cbv zeta in R. rewrite app_nil_r, Hsess, Hnew, Hchat in R.
  match type of R with
  | _ = (Ok ?s, ?s1) => set (session := s) in *; set (st1 := s1) in *
  end.
  rewrite <- Hid in R.
  exists st1, session.
  split; [exact (consult_rejected E a st session st1 e R eq_refl Herr)|].
  split; [apply PyDictFacts.get_set_same|].
  do 6 (split; [reflexivity|]).
  split.
  { pose proof (resolve_gateway_calls E _ _ session st1 R) as Hg.
    rewrite Hg, entry_state_gateway_calls.
    unfold resolved_id, PyDict.mem. rewrite Hid, T. cbn [str_of].
    now rewrite Hsess, Hnew. }
  intros E' a' e' Hid' Herr'.
  destruct (entry_state_effect E' st1) as (Hsess' & _).
  pose proof (resolve_effect E' (Some sid) (entry_state E' st1)) as R'.
  unfold resolved_id, id_events in R'. rewrite T in R'. cbn [str_of] in R'.
  cbv zeta in R'. rewrite app_nil_r, Hsess' in R'.
  assert (G : PyDict.get sid (sessions (server st1)) = Some session)
    by apply PyDictFacts.get_set_same.
  rewrite G in R'.
  match type of R' with
  | _ = (Ok ?s, ?s1) => set (session' := s) in *; set (st2 := s1) in *
  end.
  rewrite <- Hid' in R'.
  exists st2, session'.
  split; [exact (consult_rejected E' a' st1 session' st2 e' R' eq_refl Herr')|].
  split; [apply PyDictFacts.get_set_same|].
  do 5 (split; [reflexivity|]).
  pose proof (resolve_gateway_calls E' _ _ session' st2 R') as Hg.
  rewrite Hg, entry_state_gateway_calls.
  unfold resolved_id, PyDict.mem. rewrite Hid', T. cbn [str_of].
  rewrite Hsess', G. apply app_nil_r.
Qed.

Lemma failed_validation_keeps_session_witness :
  exists st' session,
    consult_gemini Examples.online Examples.bare_args Examples.initial
    = (Ok "Error: problem_description is required for new sessions", st')
    /\ PyDict.get "s1" (sessions (server st')) = Some session
    /\ message_count session = 0
    /\ problem_description session = None
    /\ code_context session = None
    /\ gateway_calls (log st') = [EvChatsCreate]
    /\ exists st'',
        consult_gemini Examples.offline Examples.description_only st'
        = (Ok "Error: Either code_context or attached_files are required for new sessions",
           st'')
        /\ gateway_calls (log st'') = [EvChatsCreate].
Proof.
  destruct (failed_validation_keeps_session
              Examples.online Examples.bare_args "s1"
              "problem_description is required for new sessions"
              Examples.initial 2)
    as (st' & session & Hcall & Hget & _ & _ & Hcount & Hpd & Hcc & _ & Hgw & Hlater);
    [reflexivity | discriminate | reflexivity | reflexivity | reflexivity |].
  exists st', session.
  do 5 (split; [assumption|]). split; [exact Hgw|].
  destruct (Hlater Examples.offline Examples.description_only
                   "Either code_context or attached_files are required for new sessions"
                   eq_refl eq_refl)
    as (st'' & session' & Hcall' & _ & _ & _ & _ & _ & _ & Hgw').
  exists st''. split; [exact Hcall'|]. now rewrite Hgw', Hgw.
Defined.

(** ** list_sessions *)

Lemma length_append (s1 s2 : string) :
  String.length (s1 ++ s2) = String.length s1 + String.length s2.
Proof. induction s1 as [|c s1 IH]; cbn; [reflexivity | now rewrite IH]. Qed.

Lemma str_take_prefix (n : nat) :
  forall s, exists rest,
    s = (str_take n s ++ rest)%string
    /\ String.length (str_take n s) = Nat.min n (String.length s).
Proof.
  unfold str_take. induction n as [|n IH]; intros s.
  - exists s. destruct s; split; reflexivity.
  - destruct s as [|ch s].
    + exists "". split; reflexivity.
    + destruct (IH s) as (rest & Hs & Hl). exists rest. cbn.
      split; [now rewrite <- Hs | now rewrite Hl].
Qed.

(** C8: on an empty registry list_sessions returns "No active sessions".
    When the registry holds one session whose problem description has 150
    characters, the listing ends with the first 100 characters of the
    description followed by three dots. *)
Theorem list_sessions_text (isoformat : Z -> string) (st : St) :
  (sessions (server st) = [] ->
   list_sessions isoformat st = (Ok "No active sessions", st))
  /\ forall sid session description,
      sessions (server st) = [(sid, session)] ->
      problem_description session = Some description ->
      String.length description = 150 ->
      exists shown rest,
        description = (shown ++ rest)%string
        /\ String.length shown = 100
        /\ String.length rest = 50
        /\ list_sessions isoformat st
           = (Ok ("Active sessions:" ++ nl
                  ++ "- **" ++ sid ++ "**" ++ nl
                  ++ "  Messages: " ++ str_of_nat (message_count session) ++ nl
                  ++ "  Created: " ++ isoformat (created session) ++ nl
                  ++ "  Last used: " ++ isoformat (last_used session) ++ nl
                  ++ "  Files attached: "
                  ++ str_of_nat (List.length (processed_files session)) ++ nl
                  ++ "  Code context: "
                  ++ (if truthy (code_context session) then "Yes" else "No") ++ nl
                  ++ "  Problem: " ++ shown ++ "...")%string,
              st).
Proof.
  split.
  - intros H. unfold list_sessions, bind, get_server, ret. now rewrite H.
  - intros sid session description Hs Hd Hlen.
    destruct (str_take_prefix 100 description) as (rest & Hsplit & Htake).
    rewrite Hlen in Htake. cbn in Htake.
    exists (str_take 100 description), rest.
    split; [exact Hsplit|]. split; [exact Htake|]. split.
    { assert (L : String.length description
                  = String.length (str_take 100 description) + String.length rest).
      { rewrite Hsplit at 1. apply length_append. }
      lia. }
    unfold list_sessions, bind, get_server, ret. rewrite Hs.
    unfold sessions_text. cbn [map String.concat].
    unfold session_entry, problem_summary. cbn [fst snd]. rewrite Hd.
    assert (T : truthy (Some description) = true).
    { cbn. destruct description; [discriminate Hlen | reflexivity]. }
    rewrite T. cbn [str_of]. reflexivity.
Qed.

Lemma list_sessions_text_witness :
  let session :=
    with_context (Some Examples.long_description) None
                 (Examples.session_at 0 "s1" 0 []) in
  String.length Examples.long_description = 150
  /\ exists shown rest,
      Examples.long_description = (shown ++ rest)%string
      /\ String.length shown = 100
      /\ String.length rest = 50
      /\ list_sessions (fun t => str_of_nat (Z.to_nat t))
                       (Examples.with_sessions [("s1", session)])
         = (Ok ("Active sessions:" ++ nl
                ++ "- **s1**" ++ nl
                ++ "  Messages: 2" ++ nl
                ++ "  Created: 0" ++ nl
                ++ "  Last used: 0" ++ nl
                ++ "  Files attached: 0" ++ nl
                ++ "  Code context: No" ++ nl
                ++ "  Problem: " ++ shown ++ "...")%string,
            Examples.with_sessions [("s1", session)]).
Proof.
  intros session. split; [reflexivity|].
  destruct (proj2 (list_sessions_text
                     (fun t => str_of_nat (Z.to_nat t))
                     (Examples.with_sessions [("s1", session)]))
                  "s1" session Examples.long_description
                  eq_refl eq_refl eq_refl)
    as (shown & rest & Hsplit & Hshown & Hrest & Htext).
  exists shown, rest. do 3 (split; [assumption|]).
  exact Htext.
Defined.

(** * Further properties *)

(** ** Dicts, continued *)

Lemma get_del {V} (k k0 : string) (d : dict V) :
  PyDict.wf d ->
  PyDict.get k (PyDict.del k0 d) = if String.eqb k k0 then None else PyDict.get k d.
Proof.
  unfold PyDict.wf. induction d as [|[k' v'] d IH]; intros Hwf.
  - cbn. now destruct (String.eqb k k0).
  - inversion Hwf as [|? ? Hn Hd]; subst. cbn [PyDict.del PyDict.get].
    destruct (String.eqb_spec k0 k') as [->|Hne0].
    + destruct (String.eqb_spec k k') as [->|Hne]; [|reflexivity].
      now apply PyDictFacts.get_None_keys.
    + cbn [PyDict.get]. destruct (String.eqb_spec k k') as [->|Hne].
      * destruct (String.eqb_spec k' k0); [congruence | reflexivity].
      * now apply IH.
Qed.

Lemma get_set {V} (k k0 : string) (v : V) (d : dict V) :
  PyDict.get k (PyDict.set k0 v d)
  = if String.eqb k k0 then Some v else PyDict.get k d.
Proof.
  destruct (String.eqb_spec k k0) as [->|Hne].
  - apply PyDictFacts.get_set_same.
  - now apply PyDictFacts.get_set_other.
Qed.

(** An object written into the registry is held by it. *)
Lemma holds_after_set (k : string) (v s : Session) (d : dict Session) :
  session_id s = k ->
  obj_id s = obj_id v ->
  holds_object (PyDict.set k v d) s = true.
Proof.
  intros Hk Ho. unfold holds_object.
  rewrite Hk, PyDictFacts.get_set_same, Ho. apply Nat.eqb_refl.
Qed.

Lemma registry_ok_empty : registry_ok PyDict.empty.
Proof. split; [constructor | discriminate]. Qed.

Lemma registry_ok_set (k : string) (s : Session) (d : dict Session) :
  registry_ok d -> session_id s = k -> registry_ok (PyDict.set k s d).
Proof.
  intros [Hwf Hkeys] Hs. split; [now apply PyDictFacts.wf_set|].
  intros k' s'. rewrite get_set.
  destruct (String.eqb_spec k' k) as [->|Hne]; [|apply Hkeys].
  intros H. now injection H as <-.
Qed.

Lemma registry_ok_del (k : string) (d : dict Session) :
  registry_ok d -> registry_ok (PyDict.del k d).
Proof.
  intros [Hwf Hkeys]. split; [now apply PyDictFacts.wf_del|].
  intros k' s'. rewrite (get_del k' k d Hwf).
  destruct (String.eqb k' k); [discriminate | apply Hkeys].
Qed.

Lemma same_object_refl (s : Session) : same_object s s.
Proof. repeat split. apply le_n. Qed.

Lemma same_object_trans (s1 s2 s3 : Session) :
  same_object s1 s2 -> same_object s2 s3 -> same_object s1 s3.
Proof.
  intros (A1 & A2 & A3 & A4 & A5) (B1 & B2 & B3 & B4 & B5).
  repeat split; try congruence. lia.
Qed.

Lemma evolves_same (sid : string) (st st' : St) :
  sessions (server st') = sessions (server st) -> evolves sid st st'.
Proof.
  intros H. constructor; rewrite H; auto.
  intros s G. exists s. split; [exact G | apply same_object_refl].
Qed.

Lemma evolves_trans (sid : string) (st1 st2 st3 : St) :
  evolves sid st1 st2 -> evolves sid st2 st3 -> evolves sid st1 st3.
Proof.
  intros A B. constructor.
  - intros k Hk. rewrite (evolves_frame _ _ _ B k Hk). now apply (evolves_frame _ _ _ A).
  - intros s G. destruct (evolves_session _ _ _ A s G) as (s2 & G2 & O2).
    destruct (evolves_session _ _ _ B s2 G2) as (s3 & G3 & O3).
    exists s3. split; [exact G3 | eapply same_object_trans; eauto].
  - intros H. apply (evolves_ok _ _ _ B). now apply (evolves_ok _ _ _ A).
Qed.

(** Writing a later state of the session back. *)
Lemma evolves_store (sid : string) (s s' : Session) (st : St) :
  in_sync sid s st ->
  same_object s s' ->
  evolves sid st (snd (store_session s' st))
  /\ in_sync sid s' (snd (store_session s' st)).
Proof.
  intros [Hid G] O. pose proof O as (Hobj & Hid' & _).
  assert (K : session_id s' = sid) by congruence.
  assert (Held : holds_object (sessions (server st)) s' = true).
  { unfold holds_object. rewrite K, G, Hobj. apply Nat.eqb_refl. }
  unfold store_session, modify_server; cbn [snd]. rewrite Held, K. split.
  - constructor; cbn.
    + intros k Hk. now apply PyDictFacts.get_set_other.
    + intros s0 G0. rewrite G in G0. injection G0 as <-.
      exists s'. split; [apply PyDictFacts.get_set_same | exact O].
    + intros H. now apply registry_ok_set.
  - split; [exact K | apply PyDictFacts.get_set_same].
Qed.

(** ** _process_file, continued *)

Section AttachmentFacts.
Variable E : Env.

(** The polling loop asks and sleeps at most [fuel] times. *)
Lemma wait_for_processing_bound fuel :
  forall uf st,
    exists evs,
      log (snd (wait_for_processing E fuel uf st)) = log st ++ evs
      /\ server (snd (wait_for_processing E fuel uf st)) = server st
      /\ forallb is_poll evs = true
      /\ List.length (filter is_files_get evs) <= fuel
      /\ List.length (filter is_sleep evs) <= fuel.
Proof.
  induction fuel as [|fuel IH]; intros uf st.
  - exists []. cbn. rewrite app_nil_r. repeat split; auto.
  - rewrite wait_for_processing_S.
    destruct (String.eqb (uploaded_state uf) "PROCESSING").
    + unfold bind, sleep, client_files_get, ask; cbn [server log].
      destruct (files_get E _ _) as [f|e].
      * destruct (IH f {| server := server st;
                          log := (log st ++ [EvSleep (seconds 1)])
                                   ++ [EvFilesGet (uploaded_name uf)] |})
          as (evs & Hl & Hs & Hp & Hg & Hz).
        exists (EvSleep (seconds 1) :: EvFilesGet (uploaded_name uf) :: evs).
        rewrite Hl, Hs. cbn [server log]. rewrite <- !app_assoc. cbn.
        rewrite Hp. repeat split; auto; lia.
      * exists [EvSleep (seconds 1); EvFilesGet (uploaded_name uf)].
        cbn. rewrite <- !app_assoc. cbn. repeat split; auto; lia.
    + exists []. cbn. rewrite app_nil_r. repeat split; auto; lia.
Qed.

(** [_process_file] on a path the session does not hold, step by step. *)
Lemma process_file_miss_cases path session st :
  PyDict.get path (processed_files session) = None ->
  let n := List.length (log st) in
  let st2 := {| server := server st;
                log := (log st ++ [EvExists path]) ++ [EvFilesUpload path] |} in
  _process_file E path session st
  = if path_exists E n path then
      match files_upload E (List.length (log st ++ [EvExists path])) path with
      | Raise e => (Raise (upload_failure path e), st2)
      | Ok u0 =>
          match wait_for_processing E timeout_seconds u0 st2 with
          | (Raise e, st3) => (Raise (upload_failure path e), st3)
          | (Ok uf, st3) =>
              if String.eqb (uploaded_state uf) "PROCESSING"
              then (Raise (upload_failure path
                             "File processing timeout after 30 seconds"), st3)
              else if String.eqb (uploaded_state uf) "FAILED"
              then (Raise (upload_failure path
                             ("File upload failed: "
                                ++ match uploaded_error uf with
                                   | Some err => err
                                   | None => "Unknown error"
                                   end)), st3)
              else
                let s' := with_processed_file path (record_of path uf) session in
                (Ok (record_of path uf, s'), snd (store_session s' st3))
          end
      end
    else (Raise ("File not found: " ++ path)%string,
          {| server := server st; log := log st ++ [EvExists path] |}).
Proof.
  intros G n st2. unfold _process_file. rewrite G.
  unfold bind at 1. unfold exists_, ask; cbn [server log]. fold n.
  destruct (path_exists E n path); cbn [negb]; [|reflexivity].
  unfold try_except, bind at 1. unfold client_files_upload, ask; cbn [server log].
  destruct (files_upload E _ path) as [u0|e]; [|reflexivity].
  unfold bind at 1. fold st2.
  destruct (wait_for_processing E timeout_seconds u0 st2) as [[uf|e] st3];
    [|reflexivity].
  destruct (String.eqb (uploaded_state uf) "PROCESSING"); [reflexivity|].
  destruct (String.eqb (uploaded_state uf) "FAILED"); [reflexivity|].
  reflexivity.
Qed.

End AttachmentFacts.

(** X1: an attachment that raises leaves the server as it was: nothing is
    cached and no session changes.  The exception says that the file was
    not found, or that processing the file failed and why. *)
Theorem failed_attachment_changes_nothing
        (E : Env) (path : string) (session : Session) (st : St)
        (e : string) (st' : St) :
  _process_file E path session st = (Raise e, st') ->
  server st' = server st
  /\ (e = ("File not found: " ++ path)%string
      \/ exists why, e = upload_failure path why).
Proof.
  destruct (PyDict.get path (processed_files session)) as [cached|] eqn:G.
  - rewrite (process_file_hit E path session cached st G). discriminate.
  - rewrite (process_file_miss_cases E path session st G). cbv zeta.
    destruct (path_exists E _ path).
    + destruct (files_upload E _ path) as [u0|e0].
      * match goal with
        | |- context [wait_for_processing E ?n ?u ?s] =>
            destruct (wait_for_processing_bound E n u s) as (evs & _ & Hs & _);
            destruct (wait_for_processing E n u s) as [[uf|e1] st3]
        end; cbn [snd] in Hs.
        -- destruct (String.eqb (uploaded_state uf) "PROCESSING");
             [intros H; injection H as <- <-; split; [exact Hs | right; eauto]|].
           destruct (String.eqb (uploaded_state uf) "FAILED");
             [intros H; injection H as <- <-; split; [exact Hs | right; eauto]|].
           discriminate.
        -- intros H; injection H as <- <-. split; [exact Hs | right; eauto].
      * intros H; injection H as <- <-. split; [reflexivity | right; eauto].
    + intros H; injection H as <- <-. split; [reflexivity | now left].
Qed.

Lemma failed_attachment_changes_nothing_witness :
  let session := Examples.session_at 0 "s1" 0 [] in
  let st := Examples.with_sessions [("s1", session)] in
  exists st',
    _process_file Examples.failing_uploads "src/main.py" session st
    = (Raise (upload_failure "src/main.py" "File upload failed: Unknown error"), st')
    /\ server st' = server st.
Proof.
  intros session st. eexists.
  match goal with
  | |- ?raised /\ _ => assert (R : raised) by (vm_compute; reflexivity)
  end.
  split; [exact R|].
  exact (proj1 (failed_attachment_changes_nothing
                  Examples.failing_uploads "src/main.py" session st _ _ R)).
Defined.

(** X2: whatever the service answers, one attachment uploads at most once,
    asks for the status of the file at most 30 times, sleeps at most 30
    times, and neither sends a message nor deletes a file. *)
Theorem attachment_effort_is_bounded
        (E : Env) (path : string) (session : Session) (st : St) :
  exists evs,
    log (snd (_process_file E path session st)) = log st ++ evs
    /\ List.length (filter is_upload evs) <= 1
    /\ List.length (filter is_files_get evs) <= 30
    /\ List.length (filter is_sleep evs) <= 30
    /\ filter is_send evs = []
    /\ filter is_delete evs = [].
Proof.
  destruct (PyDict.get path (processed_files session)) as [cached|] eqn:G.
  - rewrite (process_file_hit E path session cached st G).
    exists []. cbn. rewrite app_nil_r. repeat split; auto; lia.
  - rewrite (process_file_miss_cases E path session st G). cbv zeta.
    destruct (path_exists E _ path).
    + destruct (files_upload E _ path) as [u0|e0].
      * match goal with
        | |- context [wait_for_processing E ?n ?u ?s] =>
            destruct (wait_for_processing_bound E n u s)
              as (evs & Hl & _ & Hp & Hg & Hz);
            destruct (wait_for_processing E n u s) as [[uf|e1] st3]
        end; cbn [snd log] in Hl;
          assert (Hall : forall (r : result (ProcessedFile * Session)) st4,
                     log st4 = log st3 ->
                     exists evs0,
                       log (snd (r, st4)) = log st ++ evs0
                       /\ List.length (filter is_upload evs0) <= 1
                       /\ List.length (filter is_files_get evs0) <= 30
                       /\ List.length (filter is_sleep evs0) <= 30
                       /\ filter is_send evs0 = []
                       /\ filter is_delete evs0 = [])
            by (intros r st4 H4;
                exists (EvExists path :: EvFilesUpload path :: evs);
                cbn [snd]; rewrite H4, Hl, <- !app_assoc; cbn;
                rewrite (filter_none is_upload is_poll evs) by (auto; now intros []);
                rewrite (filter_none is_send is_poll evs) by (auto; now intros []);
                rewrite (filter_none is_delete is_poll evs) by (auto; now intros []);
                unfold timeout_seconds in *; repeat split; auto).
        -- destruct (String.eqb (uploaded_state uf) "PROCESSING");
             [now apply Hall|].
           destruct (String.eqb (uploaded_state uf) "FAILED"); [now apply Hall|].
           apply Hall. reflexivity.
        -- now apply Hall.
      * exists [EvExists path; EvFilesUpload path].
        cbn. rewrite <- !app_assoc. cbn. repeat split; auto; lia.
    + exists [EvExists path]. cbn. repeat split; auto; lia.
Qed.

Section PollingFacts.
Variable E : Env.
Hypothesis still_processing :
  forall n name, exists f,
    files_get E n name = Ok f /\ uploaded_state f = "PROCESSING".

End PollingFacts.



Section AnswerFacts.
Variable E : Env.

(** The file object the polling loop ends with is the one it started with,
    if it asked nothing, or the answer to its last status query. *)
Lemma wait_for_processing_answer fuel :
  forall u0 st2 uf st3,
    wait_for_processing E fuel u0 st2 = (Ok uf, st3) ->
    server st3 = server st2
    /\ ((uf = u0 /\ log st3 = log st2)
        \/ exists before name,
             log st3 = before ++ [EvFilesGet name]
             /\ files_get E (List.length before) name = Ok uf).
Proof.
  induction fuel as [|fuel IH]; intros u0 st2 uf st3 H.
  - injection H as <- <-. split; [reflexivity | now left].
  - rewrite wait_for_processing_S in H.
    destruct (String.eqb (uploaded_state u0) "PROCESSING");
      [|injection H as <- <-; split; [reflexivity | now left]].
    unfold bind, sleep, client_files_get, ask in H; cbn [server log] in H.
    destruct (files_get E (List.length (log st2 ++ [EvSleep (seconds 1)]))
                        (uploaded_name u0)) as [f|e] eqn:Q; [|discriminate].
    apply IH in H as [Hs [[-> Hl] | Hlater]]; cbn [server log] in *.
    + split; [exact Hs|]. right.
      exists (log st2 ++ [EvSleep (seconds 1)]), (uploaded_name u0).
      split; [exact Hl | exact Q].
    + split; [exact Hs | right; exact Hlater].
Qed.
End AnswerFacts.

(** X4: an attachment of a path the session does not hold that succeeds
    has found the file and returns a record of what the service last
    answered, the upload itself or the last status query, an answer that
    says neither PROCESSING nor FAILED: the record carries the path, its
    base name and the name, uri and mime type of that answer.  The session
    gains the record under the path, after its other files, and is
    otherwise unchanged.  If the registry holds the session, it shows the
    new state of the session in the same place; if not, the registry is as
    it was. *)
Theorem new_attachment_records_a_ready_file
        (E : Env) (path : string) (session : Session) (st : St)
        (pf : ProcessedFile) (session' : Session) (st' : St) :
  PyDict.get path (processed_files session) = None ->
  _process_file E path session st = (Ok (pf, session'), st') ->
  path_exists E (List.length (log st)) path = true
  /\ (exists uf,
        pf = record_of path uf
        /\ uploaded_state uf <> "PROCESSING"
        /\ uploaded_state uf <> "FAILED"
        /\ ((files_upload E (S (List.length (log st))) path = Ok uf
             /\ log st' = log st ++ [EvExists path; EvFilesUpload path])
            \/ exists before name,
                 log st' = before ++ [EvFilesGet name]
                 /\ files_get E (List.length before) name = Ok uf))
  /\ file_path pf = path
  /\ file_name pf = basename path
  /\ session' = with_processed_file path pf session
  /\ processed_files session' = processed_files session ++ [(path, pf)]
  /\ same_object session session'
  /\ message_count session' = message_count session
  /\ problem_description session' = problem_description session
  /\ code_context session' = code_context session
  /\ sessions (server st')
     = if holds_object (sessions (server st)) session
       then PyDict.set (session_id session) session' (sessions (server st))
       else sessions (server st).
Proof.
  intros G. rewrite (process_file_miss_cases E path session st G). cbv zeta.
  destruct (path_exists E _ path); [|discriminate].
  rewrite length_app, Nat.add_1_r.
  destruct (files_upload E _ path) as [u0|e0] eqn:U; [|discriminate].
  match goal with
  | |- context [wait_for_processing E ?n ?u ?s0] =>
      destruct (wait_for_processing E n u s0) as [[uf|e1] st3] eqn:W
  end; [|discriminate].
  destruct (wait_for_processing_answer E _ _ _ _ _ W) as [Hs Hans].
  cbn [server log] in Hs, Hans.
  destruct (String.eqb_spec (uploaded_state uf) "PROCESSING") as [|Hp];
    [discriminate|].
  destruct (String.eqb_spec (uploaded_state uf) "FAILED") as [|Hf];
    [discriminate|].
  intros H. injection H as <- <- <-.
  split; [reflexivity|]. split.
  { exists uf. do 3 (split; [auto|]). cbn [log snd].
    destruct Hans as [[-> Hl] | Hlater].
    - left. split; [reflexivity|]. now rewrite Hl, <- app_assoc.
    - right. exact Hlater. }
  split; [reflexivity|]. split; [reflexivity|]. split; [reflexivity|].
  split; [cbn; now apply PyDictFacts.set_new|].
  split; [unfold same_object; cbn; intuition|].
  do 3 (split; [reflexivity|]).
  cbn [snd server]. rewrite Hs.
  change (holds_object (sessions (server st))
                       (with_processed_file path (record_of path uf) session))
    with (holds_object (sessions (server st)) session).
  now destruct (holds_object (sessions (server st)) session).
Qed.

Lemma new_attachment_records_a_ready_file_witness :
  let session := Examples.session_at 0 "s1" 0 [] in
  let st := Examples.with_sessions [("s1", session)] in
  exists pf session' st',
    _process_file Examples.online "src/main.py" session st = (Ok (pf, session'), st')
    /\ pf = record_of "src/main.py" (Examples.remote_file 1 "ACTIVE")
    /\ files_upload Examples.online 1 "src/main.py"
       = Ok (Examples.remote_file 1 "ACTIVE")
    /\ file_name pf = "main.py"
    /\ processed_files session' = [("src/main.py", pf)]
    /\ sessions (server st') = [("s1", session')].
Proof.
  intros session st. eexists _, _, _.
  match goal with
  | |- ?attached /\ _ => assert (R : attached) by (vm_compute; reflexivity)
  end.
  split; [exact R|].
  destruct (new_attachment_records_a_ready_file
              Examples.online "src/main.py" session st _ _ _ eq_refl R)
    as (_ & _ & _ & H2 & _ & H3 & _ & _ & _ & _ & H4).
  split; [reflexivity|]. split; [reflexivity|].
  split; [exact H2|]. split; [exact H3 | exact H4].
Defined.

(** ** What a call does to the registry *)

Section RegistryFacts.
Variable E : Env.

Lemma process_file_outcome path s st :
  match _process_file E path s st with
  | (Raise _, st') => server st' = server st
  | (Ok (pf, s'), st') =>
      (s' = s /\ st' = st)
      \/ (s' = with_processed_file path pf s
          /\ exists st3, server st3 = server st
                         /\ st' = snd (store_session s' st3))
  end.
Proof.
  destruct (PyDict.get path (processed_files s)) as [cached|] eqn:G.
  - rewrite (process_file_hit E path s cached st G). now left.
  - rewrite (process_file_miss_cases E path s st G). cbv zeta.
    destruct (path_exists E _ path); [|reflexivity].
    destruct (files_upload E _ path) as [u0|e0]; [|reflexivity].
    match goal with
    | |- context [wait_for_processing E ?n ?u ?s0] =>
        destruct (wait_for_processing_bound E n u s0) as (evs & _ & Hs & _);
        destruct (wait_for_processing E n u s0) as [[uf|e1] st3]
    end; cbn [snd] in Hs; [|exact Hs].
    destruct (String.eqb (uploaded_state uf) "PROCESSING"); [exact Hs|].
    destruct (String.eqb (uploaded_state uf) "FAILED"); [exact Hs|].
    right. split; [reflexivity|]. exists st3. now split.
Qed.

Lemma same_object_with_processed_file path pf s :
  same_object s (with_processed_file path pf s).
Proof. unfold same_object; cbn; intuition. Qed.

Lemma evolves_server sid st st3 st' :
  server st3 = server st -> evolves sid st3 st' -> evolves sid st st'.
Proof.
  intros H Ev. eapply evolves_trans; [|exact Ev].
  apply evolves_same. now rewrite H.
Qed.

Lemma in_sync_server sid s st st3 :
  server st3 = server st -> in_sync sid s st -> in_sync sid s st3.
Proof. unfold in_sync. now intros ->. Qed.

Lemma process_file_evolves sid path s st :
  in_sync sid s st ->
  evolves sid st (snd (_process_file E path s st))
  /\ match fst (_process_file E path s st) with
     | Ok (_, s') =>
         in_sync sid s' (snd (_process_file E path s st)) /\ same_object s s'
     | Raise _ => in_sync sid s (snd (_process_file E path s st))
     end.
Proof.
  intros Sy. pose proof (process_file_outcome path s st) as O.
  destruct (_process_file E path s st) as [[[pf s']|e] st']; cbn [fst snd].
  - destruct O as [[-> ->] | (-> & st3 & Hs & ->)].
    + split; [now apply evolves_same|]. split; [exact Sy | apply same_object_refl].
    + destruct (evolves_store sid s (with_processed_file path pf s) st3
                  (in_sync_server _ _ _ _ Hs Sy)
                  (same_object_with_processed_file path pf s)) as [Ev Sy'].
      split; [exact (evolves_server _ _ _ _ Hs Ev)|].
      split; [exact Sy' | apply same_object_with_processed_file].
  - split; [apply evolves_same; now rewrite O|].
    exact (in_sync_server _ _ _ _ O Sy).
Qed.

(** The loop over the attached files never raises: each file adds one line
    to the context, a name or a note of its failure. *)
Lemma attach_all_evolves sid descriptions files :
  forall s parts st,
    in_sync sid s st ->
    exists s' parts' st',
      attach_all E descriptions files s parts st = (Ok (s', parts'), st')
      /\ evolves sid st st'
      /\ in_sync sid s' st'
      /\ same_object s s'
      /\ List.length parts' = List.length parts + List.length files.
Proof.
  induction files as [|path files IH]; intros s parts st Sy.
  - exists s, parts, st. cbn. unfold ret.
    split; [reflexivity|]. split; [now apply evolves_same|]. split; [exact Sy|].
    split; [apply same_object_refl | lia].
  - cbn [attach_all]. unfold bind at 1, try_except, bind at 1, ret.
    destruct (process_file_evolves sid path s st Sy) as [Ev R].
    destruct (_process_file E path s st) as [[[pf s1]|e] st1]; cbn [fst snd] in *.
    + destruct R as [Sy1 O1].
      destruct (IH s1 (parts ++ [(nl ++ "- " ++ file_name pf
                                     ++ description_of descriptions path)%string])
                   st1 Sy1)
        as (s' & parts' & st' & -> & Ev' & Sy' & O' & Hlen).
      exists s', parts', st'. split; [reflexivity|].
      split; [eapply evolves_trans; eauto|]. split; [exact Sy'|].
      split; [eapply same_object_trans; eauto|].
      rewrite Hlen, length_app. cbn. lia.
    + destruct (IH s (parts ++ [(nl ++ "- " ++ path ++ " (failed to upload: "
                                    ++ e ++ ")")%string])
                   st1 R)
        as (s' & parts' & st' & -> & Ev' & Sy' & O' & Hlen).
      exists s', parts', st'. split; [reflexivity|].
      split; [eapply evolves_trans; eauto|]. split; [exact Sy'|].
      split; [exact O'|].
      rewrite Hlen, length_app. cbn. lia.
Qed.

Lemma uploaded_objects_server files session :
  forall content st,
    server (snd (uploaded_objects E files session content st)) = server st.
Proof.
  induction files as [|path files IH]; intros content st; [reflexivity|].
  cbn [uploaded_objects].
  destruct (PyDict.get path (processed_files session)) as [file_info|]; [|apply IH].
  unfold bind, client_files_get, ask; cbn [server log].
  destruct (files_get E _ _) as [uf|e]; [|reflexivity].
  now rewrite IH.
Qed.

Lemma same_object_count n s :
  message_count s <= n -> same_object s (with_message_count n s).
Proof. unfold same_object; cbn; intuition. Qed.

Lemma increment_evolves sid s st :
  in_sync sid s st ->
  exists s' st',
    increment_message_count s st = (Ok s', st')
    /\ s' = with_message_count (S (message_count s)) s
    /\ evolves sid st st'
    /\ in_sync sid s' st'.
Proof.
  intros Sy. unfold increment_message_count, bind, ret.
  destruct (evolves_store sid s (with_message_count (S (message_count s)) s) st Sy)
    as [Ev Sy']; [apply same_object_count; lia|].
  unfold store_session, modify_server in *. cbn [snd] in *.
  eexists _, _. split; [reflexivity|]. split; [reflexivity|]. now split.
Qed.

Lemma ask_question_evolves sid a s st r st' :
  in_sync sid s st ->
  ask_question E a s st = (r, st') ->
  evolves sid st st'.
Proof.
  intros Sy H. unfold ask_question in H.
  unfold bind at 1, chat_send_message, ask in H. cbn [server log] in H.
  destruct (send_message E _ _ _) as [text|e].
  - unfold bind in H.
    match type of H with
    | context [increment_message_count s ?t] =>
        destruct (increment_evolves sid s t (in_sync_server _ _ _ _ eq_refl Sy))
          as (s' & st1 & Hinc & _ & Ev & _)
    end.
    rewrite Hinc in H. unfold ret in H. injection H as _ <-.
    refine (evolves_server sid st _ st1 _ Ev). reflexivity.
  - injection H as _ <-. now apply evolves_same.
Qed.

Lemma send_initial_context_evolves sid a s st r st' :
  in_sync sid s st ->
  send_initial_context E a s st = (r, st') ->
  evolves sid st st'
  /\ match r with
     | Ok s' => in_sync sid s' st'
     | Raise _ => True
     end.
Proof.
  intros Sy H. unfold send_initial_context in H.
  set (s0 := with_context (arg_problem_description a) (arg_code_context a) s) in H.
  assert (O0 : same_object s s0) by (unfold same_object; cbn; intuition).
  destruct (evolves_store sid s s0 st Sy O0) as [Ev0 Sy0].
  unfold bind at 1 in H. unfold store_session at 1, modify_server at 1 in H.
  unfold store_session, modify_server in Ev0, Sy0. cbn [snd] in Ev0, Sy0.
  set (st0 := {| server := _; log := log st |}) in *.
  unfold bind at 1 in H.
  match type of H with
  | context [if truthy_list (attached_files a) then ?x else ?y] =>
      assert (A : exists s1 parts1 st1,
                 (if truthy_list (attached_files a) then x else y) st0
                 = (Ok (s1, parts1), st1)
                 /\ evolves sid st0 st1 /\ in_sync sid s1 st1)
  end.
  { destruct (truthy_list (attached_files a)).
    - match goal with
      | |- context [attach_all E ?d ?f ?x ?ps ?t] =>
          destruct (attach_all_evolves sid d f x ps t Sy0)
            as (s1 & parts1 & st1 & HA & Ev1 & Sy1 & _)
      end.
      now exists s1, parts1, st1.
    - eexists _, _, st0. unfold ret.
      split; [reflexivity|]. split; [now apply evolves_same | exact Sy0]. }
  destruct A as (s1 & parts1 & st1 & HA & Ev1 & Sy1).
  rewrite HA in H. cbn [fst snd] in H.
  assert (Ev01 : evolves sid st st1) by (eapply evolves_trans; eauto).
  unfold bind at 1 in H.
  match type of H with
  | context [uploaded_objects E ?f ?x ?c ?t] =>
      pose proof (uploaded_objects_server f x c t) as U;
      destruct (uploaded_objects E f x c t) as [[content|e] st2]
  end; cbn [snd] in U.
  - unfold bind at 1, chat_send_message, ask in H. cbn [server log] in H.
    destruct (send_message E _ _ _) as [text|e].
    + match type of H with
      | increment_message_count s1 ?t = _ =>
          assert (Sy3 : in_sync sid s1 t)
            by (apply (in_sync_server sid s1 st1 t); [exact U | exact Sy1]);
          destruct (increment_evolves sid s1 t Sy3)
            as (s' & st3 & Hinc & _ & Ev & Sy')
      end.
      rewrite Hinc in H. injection H as <- <-.
      split; [|exact Sy'].
      eapply evolves_trans; [exact Ev01|].
      refine (evolves_server sid st1 _ st3 _ Ev). exact U.
    + injection H as <- <-. split; [|exact I].
      eapply evolves_trans; [exact Ev01|]. apply evolves_same. cbn. now rewrite U.
  - injection H as <- <-. split; [|exact I].
    eapply evolves_trans; [exact Ev01|]. apply evolves_same. now rewrite U.
Qed.

Lemma same_object_with_last_used t s : same_object s (with_last_used t s).
Proof. unfold same_object; cbn; intuition. Qed.

Lemma resolve_evolves id st r st' :
  registry_ok (sessions (server st)) ->
  _get_or_create_session E id st = (r, st') ->
  evolves (resolved_id E id st) st st'
  /\ match r with
     | Ok s => in_sync (resolved_id E id st) s st'
     | Raise _ => True
     end.
Proof.
  intros Hok. rewrite resolve_effect. cbv zeta.
  set (sid := resolved_id E id st).
  destruct (PyDict.get sid (sessions (server st))) as [found|] eqn:G.
  - intros H. injection H as <- <-.
    assert (Hid : session_id found = sid) by now apply (proj2 Hok).
    split.
    + constructor; cbn.
      * intros k Hk. now apply PyDictFacts.get_set_other.
      * intros s0 G0. rewrite G in G0. injection G0 as <-.
        eexists. split; [apply PyDictFacts.get_set_same|].
        apply same_object_with_last_used.
      * intros H. now apply registry_ok_set.
    + split; [exact Hid | apply PyDictFacts.get_set_same].
  - destruct (chats_create E _) as [c|e]; intros H; injection H as <- <-.
    + split.
      * constructor; cbn.
        -- intros k Hk. now apply PyDictFacts.get_set_other.
        -- intros s0 G0. rewrite G in G0. discriminate.
        -- intros H. now apply registry_ok_set.
      * split; [reflexivity | apply PyDictFacts.get_set_same].
    + split; [now apply evolves_same | exact I].
Qed.

Lemma consult_try_evolves a st r st' :
  registry_ok (sessions (server st)) ->
  consult_try E a st = (r, st') ->
  evolves (resolved_id E (arg_session_id a) st) st st'.
Proof.
  intros Hok H. unfold consult_try in H. unfold bind at 1 in H.
  destruct (_get_or_create_session E (arg_session_id a) st)
    as [[s|e] st1] eqn:R.
  - destruct (resolve_evolves _ _ _ _ Hok R) as [Ev1 Sy1].
    set (sid := resolved_id E (arg_session_id a) st) in *.
    unfold bind at 1 in H.
    destruct (Nat.eqb (message_count s) 0).
    + unfold first_exchange in H.
      destruct (new_session_error a) as [err|].
      * injection H as _ <-. exact Ev1.
      * destruct (send_initial_context E a s st1) as [[s2|e2] st2] eqn:C;
          destruct (send_initial_context_evolves sid a s st1 _ _ Sy1 C) as [Ev2 Sy2].
        -- eapply evolves_trans; [exact Ev1|]. eapply evolves_trans; [exact Ev2|].
           eapply ask_question_evolves; eauto.
        -- injection H as _ <-. eapply evolves_trans; eauto.
    + unfold ret in H. eapply evolves_trans; [exact Ev1|].
      eapply ask_question_evolves; eauto.
  - injection H as _ <-.
    exact (proj1 (resolve_evolves _ _ _ _ Hok R)).
Qed.

Lemma consult_gemini_evolves a st :
  registry_ok (sessions (server st)) ->
  evolves (resolved_id E (arg_session_id a) (entry_state E st)) st
          (snd (consult_gemini E a st)).
Proof.
  intros Hok. rewrite consult_gemini_entry.
  destruct (entry_state_effect E st) as (Hs & _).
  assert (Hok1 : registry_ok (sessions (server (entry_state E st))))
    by now rewrite Hs.
  unfold try_except.
  destruct (consult_try E a (entry_state E st)) as [[text|e] st1] eqn:T;
    pose proof (consult_try_evolves a _ _ _ Hok1 T) as Ev; cbn [snd];
    (eapply evolves_trans; [apply evolves_same; exact Hs | exact Ev]).
Qed.

End RegistryFacts.

(** The reaper and the end of a session keep the registry well formed. *)
Lemma registry_ok_reaped (ks : list string) :
  forall d, registry_ok d -> registry_ok (fst (reaped ks d)).
Proof.
  induction ks as [|k ks IH]; intros d Hok; cbn [reaped fst]; [exact Hok|].
  apply IH. now apply registry_ok_del.
Qed.

Lemma cleanup_iteration_effect (E : Env) (st : St) :
  let now := datetime_now E (S (List.length (log st))) in
  let ks := PyDict.keys (filter (fun kv => is_expired now (snd kv))
                                (sessions (server st))) in
  _cleanup_iteration E st
  = (Ok tt,
     {| server := set_sessions (fst (reaped ks (sessions (server st)))) (server st);
        log := (log st ++ [EvSleep (seconds 300); EvNow])
                 ++ snd (reaped ks (sessions (server st))) |}).
Proof.
  intros now ks. unfold _cleanup_iteration.
  unfold bind at 1, sleep, ask. unfold bind at 1, now_, ask.
  unfold bind at 1, get_server. cbn [server log].
  rewrite remove_expired_effect. cbn [server log].
  rewrite length_app, Nat.add_1_r. fold now. fold ks.
  now rewrite <- !app_assoc.
Qed.

Lemma end_session_effect (E : Env) (sid : string) (st : St) :
  end_session E sid st
  = match PyDict.get sid (sessions (server st)) with
    | Some session =>
        (Ok ("Session " ++ sid ++ " has been ended")%string,
         {| server := set_sessions (PyDict.del sid (sessions (server st))) (server st);
            log := log st ++ session_deletes session |})
    | None =>
        (Ok ("Session " ++ sid ++ " not found or already expired")%string, st)
    end.
Proof.
  unfold end_session, bind at 1, get_server, PyDict.mem.
  destruct (PyDict.get sid (sessions (server st))) as [session|] eqn:G;
    [|reflexivity].
  unfold bind at 1. rewrite cleanup_session_files_effect, G.
  reflexivity.
Qed.

(** X5: a call of consult_gemini changes no session but the one it resolves:
    every session registered under another id is after the call what it was
    before, whatever the arguments and whatever the service answers. *)
Theorem consult_gemini_touches_one_session
        (E : Env) (a : ConsultArgs) (st : St) (k : string) :
  registry_ok (sessions (server st)) ->
  k <> resolved_id E (arg_session_id a) (entry_state E st) ->
  PyDict.get k (sessions (server (snd (consult_gemini E a st))))
  = PyDict.get k (sessions (server st)).
Proof.
  intros Hok Hk.
  exact (evolves_frame _ _ _ (consult_gemini_evolves E a st Hok) k Hk).
Qed.

Lemma consult_gemini_touches_one_session_witness :
  let other := Examples.session_at 0 "s0" 0 [] in
  let st := Examples.with_sessions [("s0", other)] in
  registry_ok (sessions (server st))
  /\ "s0" <> resolved_id Examples.online (arg_session_id Examples.first_args)
                          (entry_state Examples.online st)
  /\ PyDict.get "s0" (sessions (server (snd (consult_gemini Examples.online
                                                             Examples.first_args st))))
     = Some other.
Proof.
  intros other st.
  assert (Hok : registry_ok (sessions (server st))).
  { split.
    - repeat constructor. cbn. tauto.
    - intros k s. cbn. destruct (String.eqb_spec k "s0") as [->|]; [|discriminate].
      intros H. now injection H as <-. }
  assert (Hk : "s0" <> resolved_id Examples.online (arg_session_id Examples.first_args)
                                   (entry_state Examples.online st))
    by discriminate.
  split; [exact Hok|]. split; [exact Hk|].
  exact (consult_gemini_touches_one_session
           Examples.online Examples.first_args st "s0" Hok Hk).
Defined.

(** X6: a call of consult_gemini removes no session and replaces no session
    object: every session registered before the call is registered after it
    under the same id, as the same object with the same conversation and
    creation time, and its message count has not decreased. *)
Theorem consult_gemini_keeps_every_session
        (E : Env) (a : ConsultArgs) (st : St) (k : string) (s : Session) :
  registry_ok (sessions (server st)) ->
  PyDict.get k (sessions (server st)) = Some s ->
  exists s',
    PyDict.get k (sessions (server (snd (consult_gemini E a st)))) = Some s'
    /\ obj_id s' = obj_id s
    /\ session_id s' = session_id s
    /\ chat s' = chat s
    /\ created s' = created s
    /\ message_count s <= message_count s'.
Proof.
  intros Hok G.
  pose proof (consult_gemini_evolves E a st Hok) as Ev.
  destruct (String.eqb_spec k (resolved_id E (arg_session_id a) (entry_state E st)))
    as [->|Hk].
  - destruct (evolves_session _ _ _ Ev s G) as (s' & G' & O). now exists s'.
  - exists s. rewrite (evolves_frame _ _ _ Ev k Hk).
    split; [exact G | apply same_object_refl].
Qed.

Lemma consult_gemini_keeps_every_session_witness :
  let s := Examples.session_at 0 "s1" 0 [] in
  let st := Examples.with_sessions [("s1", s)] in
  registry_ok (sessions (server st))
  /\ PyDict.get "s1" (sessions (server st)) = Some s
  /\ exists s',
      PyDict.get "s1" (sessions (server (snd (consult_gemini Examples.unreachable
                                                             Examples.first_args st))))
      = Some s'
      /\ obj_id s' = obj_id s
      /\ session_id s' = session_id s
      /\ chat s' = chat s
      /\ created s' = created s
      /\ message_count s <= message_count s'.
Proof.
  intros s st.
  assert (Hok : registry_ok (sessions (server st))).
  { split.
    - repeat constructor. cbn. tauto.
    - intros k s0. cbn. destruct (String.eqb_spec k "s1") as [->|]; [|discriminate].
      intros H. now injection H as <-. }
  split; [exact Hok|]. split; [reflexivity|].
  exact (consult_gemini_keeps_every_session
           Examples.unreachable Examples.first_args st "s1" s Hok eq_refl).
Defined.

(** X7: the registry stays well formed: if no key occurs twice and every
    session is registered under its own [session_id], the same holds after
    a call of consult_gemini, after end_session and after a turn of the
    reaper, whatever the arguments and whatever the service answers. *)
Theorem registry_stays_well_formed
        (E : Env) (a : ConsultArgs) (sid : string) (st : St) :
  registry_ok (sessions (server st)) ->
  registry_ok (sessions (server (snd (consult_gemini E a st))))
  /\ registry_ok (sessions (server (snd (end_session E sid st))))
  /\ registry_ok (sessions (server (snd (_cleanup_iteration E st)))).
Proof.
  intros Hok. split; [|split].
  - exact (evolves_ok _ _ _ (consult_gemini_evolves E a st Hok) Hok).
  - rewrite end_session_effect.
    destruct (PyDict.get sid (sessions (server st))); cbn; [|exact Hok].
    now apply registry_ok_del.
  - rewrite cleanup_iteration_effect. cbn. now apply registry_ok_reaped.
Qed.

Lemma registry_stays_well_formed_witness :
  registry_ok (sessions (server Examples.initial))
  /\ registry_ok (sessions (server (snd (consult_gemini Examples.online
                                                         Examples.first_args
                                                         Examples.initial))))
  /\ registry_ok (sessions (server (snd (end_session Examples.online "s1"
                                                      Examples.initial))))
  /\ registry_ok (sessions (server (snd (_cleanup_iteration Examples.online
                                                             Examples.initial)))).
Proof.
  split; [exact registry_ok_empty|].
  exact (registry_stays_well_formed
           Examples.online Examples.first_args "s1" Examples.initial
           registry_ok_empty).
Defined.


(** ** end_session and the reaper, continued *)

Lemma set_sessions_same (g : GeminiMCPServer) : set_sessions (sessions g) g = g.
Proof. now destruct g. Qed.

(** X9: end_session on a registered id sends one delete call for each file
    of the session, whether or not the deletes succeed, removes that session
    and no other, and says so.  Asked again for the same id, it reports that
    the session is not found, and changes nothing and calls nothing. *)
Theorem end_session_releases_then_reports_gone
        (E E' : Env) (sid : string) (s : Session) (st : St) :
  PyDict.wf (sessions (server st)) ->
  PyDict.get sid (sessions (server st)) = Some s ->
  exists st',
    end_session E sid st
    = (Ok ("Session " ++ sid ++ " has been ended")%string, st')
    /\ log st' = log st ++ session_deletes s
    /\ PyDict.get sid (sessions (server st')) = None
    /\ (forall k, k <> sid ->
          PyDict.get k (sessions (server st')) = PyDict.get k (sessions (server st)))
    /\ end_session E' sid st'
       = (Ok ("Session " ++ sid ++ " not found or already expired")%string, st').
Proof.
  intros Hwf G. rewrite end_session_effect, G. eexists. split; [reflexivity|].
  cbn [server log sessions set_sessions].
  assert (Gone : PyDict.get sid (PyDict.del sid (sessions (server st))) = None).
  { rewrite (get_del sid sid _ Hwf). now rewrite String.eqb_refl. }
  split; [reflexivity|]. split; [exact Gone|]. split.
  - intros k Hk. rewrite (get_del k sid _ Hwf).
    now destruct (String.eqb_spec k sid).
  - rewrite end_session_effect. cbn [server sessions set_sessions].
    now rewrite Gone.
Qed.

Lemma end_session_releases_then_reports_gone_witness :
  let old :=
    Examples.session_at 0 "old" 0
      [("src/main.py", Examples.main_py); ("src/util.py", Examples.util_py)] in
  let st := Examples.with_sessions [("old", old)] in
  exists st',
    end_session Examples.offline "old" st = (Ok "Session old has been ended", st')
    /\ log st' = [EvFilesDelete "files/7"; EvFilesDelete "files/8"]
    /\ sessions (server st') = []
    /\ end_session Examples.online "old" st'
       = (Ok "Session old not found or already expired", st').
Proof.
  intros old st.
  destruct (end_session_releases_then_reports_gone
              Examples.offline Examples.online "old" old st)
    as (st' & H1 & H2 & _ & _ & H3).
  - repeat constructor. cbn. tauto.
  - reflexivity.
  - exists st'. split; [exact H1|]. split; [exact H2|]. split; [|exact H3].
    rewrite end_session_effect in H1. cbn in H1. injection H1 as <-. reflexivity.
Defined.

Lemma forallb_filter {A} (p q : A -> bool) (l : list A) :
  forallb p l = true -> forallb p (filter q l) = true.
Proof.
  induction l as [|x l IH]; cbn; [auto|].
  intros H. apply andb_prop in H as [Hx Hl].
  destruct (q x); cbn; [rewrite Hx|]; auto.
Qed.

Lemma del_incl {V} (k : string) (d : dict V) : incl (PyDict.del k d) d.
Proof.
  induction d as [|[k' v'] d IH]; cbn; [apply incl_refl|].
  destruct (String.eqb k k').
  - apply incl_tl, incl_refl.
  - intros x [<-|Hx]; [now left | right; now apply IH].
Qed.

Lemma reaped_incl (ks : list string) :
  forall d, incl (fst (reaped ks d)) d.
Proof.
  induction ks as [|k ks IH]; intros d; cbn [reaped fst]; [apply incl_refl|].
  eapply incl_tran; [apply IH | apply del_incl].
Qed.

Lemma reaped_deletes (ks : list string) :
  forall d, forallb is_delete (snd (reaped ks d)) = true.
Proof.
  induction ks as [|k ks IH]; intros d; cbn [reaped snd]; [reflexivity|].
  rewrite forallb_app, IH, andb_true_r.
  destruct (PyDict.get k d) as [session|]; [|reflexivity].
  unfold session_deletes. induction (PyDict.values (processed_files session));
    [reflexivity | exact IHl].
Qed.

(** X10: the reaper never raises and never registers anything: after any
    number of turns, whatever the service answers to its deletes, every
    entry of the registry is an entry it had before, and the only calls
    made to the service are deletes. *)
Theorem reaper_only_deletes (E : Env) (n : nat) (st : St) :
  exists st' evs,
    _cleanup_sessions E n st = (Ok tt, st')
    /\ incl (sessions (server st')) (sessions (server st))
    /\ log st' = log st ++ evs
    /\ forallb is_delete (gateway_calls evs) = true.
Proof.
  revert st. induction n as [|n IH]; intros st.
  - exists st, []. cbn. unfold ret. rewrite app_nil_r.
    split; [reflexivity|]. split; [apply incl_refl|]. now split.
  - cbn [_cleanup_sessions]. unfold bind. rewrite cleanup_iteration_effect.
    cbv zeta.
    set (ks := PyDict.keys _).
    match goal with
    | |- context [_cleanup_sessions E n ?s1] =>
        destruct (IH s1) as (st' & evs & -> & Hincl & Hlog & Hdel)
    end.
    cbn [server log sessions set_sessions] in Hincl, Hlog.
    exists st', ([EvSleep (seconds 300); EvNow]
                   ++ snd (reaped ks (sessions (server st))) ++ evs).
    split; [reflexivity|]. split.
    { eapply incl_tran; [exact Hincl | apply reaped_incl]. }
    split; [rewrite Hlog, <- !app_assoc; reflexivity|].
    rewrite gateway_calls_app.
    change (gateway_calls [EvSleep (seconds 300); EvNow]) with (@nil Event).
    rewrite app_nil_l, gateway_calls_app, forallb_app.
    apply andb_true_intro. split; [|exact Hdel].
    apply forallb_filter, reaped_deletes.
Qed.

(** X11: a turn of the reaper in which no session has been idle for more
    than 3600 seconds (3600 seconds exactly is not more) leaves the registry
    as it is and makes no call to the service. *)
Theorem reaper_spares_active_sessions (E : Env) (st : St) :
  (forall k s,
      In (k, s) (sessions (server st)) ->
      (datetime_now E (S (List.length (log st))) - last_used s
       <= seconds 3600)%Z) ->
  _cleanup_iteration E st
  = (Ok tt, {| server := server st;
               log := log st ++ [EvSleep (seconds 300); EvNow] |}).
Proof.
  intros Hactive. rewrite cleanup_iteration_effect. cbv zeta.
  assert (F : filter (fun kv : string * Session =>
                        is_expired (datetime_now E (S (List.length (log st))))
                                   (snd kv))
                     (sessions (server st)) = []).
  { induction (sessions (server st)) as [|[k s] d IH]; [reflexivity|].
    cbn [filter snd]. unfold is_expired at 1.
    assert (Hs : (datetime_now E (S (List.length (log st))) - last_used s
                  <= seconds 3600)%Z) by (apply (Hactive k); now left).
    destruct (Z.ltb_spec (seconds SESSION_TTL)
                         (datetime_now E (S (List.length (log st))) - last_used s))
      as [Hlt|_].
    - unfold SESSION_TTL in Hlt. lia.
    - apply IH. intros k' s' Hin. apply (Hactive k'). now right. }
  rewrite F. cbn [PyDict.keys map reaped fst snd].
  now rewrite set_sessions_same, app_nil_r.
Qed.

Lemma reaper_spares_active_sessions_witness :
  let s := Examples.session_at 0 "s1" (seconds 96401) [] in
  let st := Examples.with_sessions [("s1", s)] in
  (datetime_now Examples.online 1 - last_used s = seconds 3600)%Z
  /\ _cleanup_iteration Examples.online st
     = (Ok tt, {| server := server st;
                  log := [EvSleep (seconds 300); EvNow] |}).
Proof.
  intros s st. split; [reflexivity|].
  apply (reaper_spares_active_sessions Examples.online st).
  intros k s' [H|[]]. injection H as <- <-. cbn. lia.
Defined.

(** ** consult_gemini, continued *)



(** Writing to an object the registry holds. *)
Lemma store_session_held (s : Session) (st : St) :
  holds_object (sessions (server st)) s = true ->
  store_session s st
  = (Ok tt,
     {| server := set_sessions (PyDict.set (session_id s) s (sessions (server st)))
                               (server st);
        log := log st |}).
Proof. intros H. unfold store_session, modify_server. now rewrite H. Qed.

Lemma increment_held (s : Session) (st : St) :
  holds_object (sessions (server st)) s = true ->
  increment_message_count s st
  = (Ok (with_message_count (S (message_count s)) s),
     {| server :=
          set_sessions (PyDict.set (session_id s)
                                   (with_message_count (S (message_count s)) s)
                                   (sessions (server st)))
                       (server st);
        log := log st |}).
Proof.
  intros H. unfold increment_message_count, bind.
  rewrite store_session_held by exact H. reflexivity.
Qed.

Lemma files_or_empty_falsy (o : option (list string)) :
  truthy_list o = false -> files_or_empty o = [].
Proof. destruct o as [[|x l]|]; [reflexivity | discriminate | reflexivity]. Qed.

(** The first exchange of a call that attaches no file. *)
Lemma send_initial_context_without_files (E : Env) a s st :
  truthy_list (attached_files a) = false ->
  let s0 := with_context (arg_problem_description a) (arg_code_context a) s in
  let content := [Text (context_without_files a)] in
  let st1 :=
    {| server := server (snd (store_session s0 st));
       log := log st ++ [EvSendMessage (chat s) content] |} in
  send_initial_context E a s st
  = match send_message E (List.length (log st)) (chat s) content with
    | Ok _ => increment_message_count s0 st1
    | Raise e => (Raise e, st1)
    end.
Proof.
  intros Hf s0 content st1. unfold send_initial_context.
  rewrite Hf, (files_or_empty_falsy _ Hf).
  unfold bind at 1. unfold store_session at 1, modify_server at 1.
  unfold bind at 1, ret at 1. cbn [fst snd uploaded_objects].
  unfold bind at 1, ret at 1.
  unfold bind at 1, chat_send_message, ask. cbn [server log sessions chat with_context
                                                 session_id].
  fold s0. unfold context_without_files in content. fold content.
  destruct (send_message E (List.length (log st)) (chat s) content); reflexivity.
Qed.

(** X13: a first call under a new id that brings a problem description and
    code context, attaches no file and whose messages go through counts two
    messages: the context and the question.  The session is registered with
    the description and the code context of the call, and the service has
    been called three times: to create the conversation, to send the
    context and to send the question. *)
Theorem first_call_counts_two_messages
        (E : Env) (a : ConsultArgs) (sid : string) (st : St) (c : Chat) :
  arg_session_id a = Some sid ->
  sid <> "" ->
  PyDict.get sid (sessions (server st)) = None ->
  truthy (arg_problem_description a) = true ->
  truthy (arg_code_context a) = true ->
  truthy_list (attached_files a) = false ->
  chats_create E (List.length (log (entry_state E st))) = Ok c ->
  (forall n ch m, exists reply, send_message E n ch m = Ok reply) ->
  exists reply st' s',
    consult_gemini E a st = (Ok (reply_text s' reply), st')
    /\ PyDict.get sid (sessions (server st')) = Some s'
    /\ session_id s' = sid
    /\ chat s' = c
    /\ message_count s' = 2
    /\ problem_description s' = arg_problem_description a
    /\ code_context s' = arg_code_context a
    /\ processed_files s' = []
    /\ gateway_calls (log st')
       = gateway_calls (log st)
           ++ [EvChatsCreate;
               EvSendMessage c [Text (context_without_files a)];
               EvSendMessage c [Text (question_prompt a)]].
Proof.
  intros Hid Hne G Hpd Hcc Hf Hchat Hsend.
  assert (T : truthy (Some sid) = true).
  { cbn. destruct (String.eqb_spec sid ""); [contradiction | reflexivity]. }
  assert (Herr : new_session_error a = None).
  { unfold new_session_error. now rewrite Hpd, Hcc. }
  destruct (entry_state_effect E st) as (Hsess & _).
  pose proof (entry_state_gateway_calls E st) as Hgw.
  pose proof (resolve_effect E (Some sid) (entry_state E st)) as R.
  unfold resolved_id, id_events in R. rewrite T in R. cbn [str_of] in R.
  cbv zeta in R. rewrite app_nil_r, Hsess, G, Hchat in R.
  match type of R with
  | _ = (Ok ?s, ?s1) => set (session := s) in *; set (st1 := s1) in *
  end.
  rewrite <- Hid in R.
  rewrite (consult_accepted E a st session st1 R eq_refl Herr).
  unfold try_except, bind at 1.
  rewrite (send_initial_context_without_files E a session st1 Hf). cbv zeta.
  destruct (Hsend (List.length (log st1)) (chat session)
                  [Text (context_without_files a)]) as (r1 & ->).
  assert (H0 : holds_object (sessions (server st1))
                            (with_context (arg_problem_description a)
                                          (arg_code_context a) session) = true)
    by (apply holds_after_set; reflexivity).
  rewrite (store_session_held _ _ H0). cbn [snd server sessions set_sessions st1].
  match goal with
  | |- context [increment_message_count ?s ?t] =>
      rewrite (increment_held s t) by (apply holds_after_set; reflexivity)
  end.
  cbn [server log sessions set_sessions session_id chat with_context
       with_message_count message_count session].
  unfold ask_question, bind at 1, chat_send_message, ask.
  cbn [server log chat with_message_count with_context session].
  match goal with
  | |- context [send_message E ?n ?ch ?m] =>
      destruct (Hsend n ch m) as (reply & ->)
  end.
  unfold bind.
  match goal with
  | |- context [increment_message_count ?s ?t] =>
      rewrite (increment_held s t) by (apply holds_after_set; reflexivity)
  end.
  unfold ret.
  eexists reply, _, _. split; [reflexivity|].
  cbn [server log sessions set_sessions session_id with_context
       with_message_count session].
  split; [apply PyDictFacts.get_set_same|].
  do 6 (split; [reflexivity|]).
  unfold st1. cbn [log].
  rewrite !gateway_calls_app, Hgw. cbn. rewrite <- !app_assoc. reflexivity.
Qed.

Lemma first_call_counts_two_messages_witness :
  exists reply st' s',
    consult_gemini Examples.online Examples.first_args Examples.initial
    = (Ok (reply_text s' reply), st')
    /\ PyDict.get "s1" (sessions (server st')) = Some s'
    /\ message_count s' = 2
    /\ problem_description s' = Some "The parser loops forever"
    /\ List.length (gateway_calls (log st')) = 3.
Proof.
  destruct (first_call_counts_two_messages
              Examples.online Examples.first_args "s1" Examples.initial 2)
    as (reply & st' & s' & H1 & H2 & _ & _ & H5 & H6 & _ & _ & H9);
    [reflexivity | discriminate | reflexivity | reflexivity | reflexivity
     | reflexivity | reflexivity | intros n ch m; now exists "reply" |].
  exists reply, st', s'.
  split; [exact H1|]. split; [exact H2|]. split; [exact H5|].
  split; [exact H6|]. now rewrite H9.
Defined.



(** X15: when the conversation cannot be created, consult_gemini returns the
    error text and registers nothing: the registry and the object counter
    are what they were, and the failed creation is the only call made to
    the service. *)
Theorem failed_creation_registers_nothing
        (E : Env) (a : ConsultArgs) (st : St) (e : string) :
  PyDict.get (resolved_id E (arg_session_id a) (entry_state E st))
             (sessions (server st)) = None ->
  chats_create E (List.length (log (entry_state E st)
                                ++ id_events (arg_session_id a))) = Raise e ->
  exists st',
    consult_gemini E a st = (Ok ("Error: " ++ error_message e)%string, st')
    /\ sessions (server st') = sessions (server st)
    /\ next_obj_id (server st') = next_obj_id (server st)
    /\ gateway_calls (log st') = gateway_calls (log st) ++ [EvChatsCreate].
Proof.
  intros G Hchat.
  destruct (entry_state_effect E st) as (Hsess & Hobj & _).
  pose proof (entry_state_gateway_calls E st) as Hgw.
  rewrite consult_gemini_entry. unfold try_except, consult_try, bind at 1.
  rewrite resolve_effect. cbv zeta. rewrite Hsess, G, Hchat. unfold ret.
  eexists. split; [reflexivity|]. cbn [server log].
  split; [exact Hsess|]. split; [exact Hobj|].
  rewrite !gateway_calls_app, Hgw.
  assert (Hid : gateway_calls (id_events (arg_session_id a)) = []).
  { unfold id_events. now destruct (truthy (arg_session_id a)). }
  rewrite Hid. cbn. now rewrite app_nil_r.
Qed.

Lemma failed_creation_registers_nothing_witness :
  exists st',
    consult_gemini Examples.offline Examples.first_args Examples.initial
    = (Ok "Error: 503 UNAVAILABLE", st')
    /\ sessions (server st') = []
    /\ next_obj_id (server st') = 0
    /\ gateway_calls (log st') = [EvChatsCreate].
Proof.
  exact (failed_creation_registers_nothing
           Examples.offline Examples.first_args Examples.initial
           "503 UNAVAILABLE" eq_refl eq_refl).
Defined.

(** ** Session resolution, continued *)

(** X16: a resolution without an id, or with the empty string for an id,
    asks for a uuid; if the registry does not hold it and the conversation
    is created, a new session is registered under the uuid, after all the
    others, with no message, no context and no file, as a new object. *)
Theorem resolution_without_id_registers_a_uuid
        (E : Env) (id : option string) (st : St) (c : Chat) :
  id = None \/ id = Some "" ->
  PyDict.get (uuid4 E (List.length (log st))) (sessions (server st)) = None ->
  chats_create E (S (List.length (log st))) = Ok c ->
  exists s st',
    _get_or_create_session E id st = (Ok s, st')
    /\ session_id s = uuid4 E (List.length (log st))
    /\ chat s = c
    /\ obj_id s = next_obj_id (server st)
    /\ next_obj_id (server st') = S (next_obj_id (server st))
    /\ message_count s = 0
    /\ problem_description s = None
    /\ code_context s = None
    /\ processed_files s = []
    /\ sessions (server st')
       = sessions (server st) ++ [(uuid4 E (List.length (log st)), s)]
    /\ log st' = log st ++ [EvUuid; EvChatsCreate; EvNow; EvNow].
Proof.
  intros Hid G Hchat.
  assert (T : truthy id = false) by (destruct Hid as [-> | ->]; reflexivity).
  rewrite resolve_effect. unfold resolved_id, id_events. rewrite T. cbv zeta.
  rewrite G, length_app, Nat.add_1_r, Hchat.
  eexists _, _. split; [reflexivity|]. cbn [server log sessions next_obj_id].
  do 8 (split; [reflexivity|]).
  split; [now apply PyDictFacts.set_new|].
  now rewrite <- !app_assoc.
Qed.

Lemma resolution_without_id_registers_a_uuid_witness :
  exists s st',
    _get_or_create_session Examples.online (Some "") Examples.initial = (Ok s, st')
    /\ session_id s = "uuid-0"
    /\ sessions (server st') = [("uuid-0", s)]
    /\ log st' = [EvUuid; EvChatsCreate; EvNow; EvNow].
Proof.
  destruct (resolution_without_id_registers_a_uuid
              Examples.online (Some "") Examples.initial 1)
    as (s & st' & H1 & H2 & _ & _ & _ & _ & _ & _ & _ & H10 & H11);
    [now right | reflexivity | reflexivity |].
  exists s, st'. repeat split; assumption.
Defined.

(** ** The rate limiter, continued *)

(** X17: [_rate_limit] reads the clock, sleeps only if less than the minimum
    spacing has passed since the last request, then notes the time of a
    second reading as the last request.  When it sleeps it sleeps for the
    remainder of the spacing, which is positive and, if the clock is not
    behind the last request, no more than the spacing.  It changes no
    session and calls the service never. *)
Theorem rate_limit_sleeps_the_remainder (E : Env) (st : St) :
  let now := time_time E (List.length (log st)) in
  let last := last_request_time (server st) in
  let spacing := min_time_between_requests (server st) in
  exists st' evs,
    _rate_limit E st = (Ok tt, st')
    /\ log st' = log st ++ evs
    /\ sessions (server st') = sessions (server st)
    /\ min_time_between_requests (server st') = spacing
    /\ last_request_time (server st')
       = time_time E (List.length (log st ++ evs) - 1)
    /\ gateway_calls evs = []
    /\ ((spacing <= now - last)%Z /\ evs = [EvTime; EvTime]
        \/ exists d,
             evs = [EvTime; EvSleep d; EvTime]
             /\ d = (spacing - (now - last))%Z
             /\ (0 < d)%Z
             /\ ((last <= now)%Z -> (d <= spacing)%Z)).
Proof.
  intros now last spacing. unfold _rate_limit.
  unfold bind at 1, time_, ask. unfold bind at 1, get_server. cbn [server log].
  fold now last spacing. unfold rate_limit_delay.
  destruct (Z.ltb_spec (now - last) spacing) as [Hlt|Hge].
  - unfold bind, sleep, ask, modify_server; cbn [server log].
    eexists _, [EvTime; EvSleep (spacing - (now - last)); EvTime].
    split; [reflexivity|]. cbn [server log sessions set_last_request_time
                                min_time_between_requests last_request_time].
    split; [now rewrite <- !app_assoc|]. split; [reflexivity|].
    split; [reflexivity|]. split.
    { f_equal. rewrite !length_app. cbn. lia. }
    split; [reflexivity|]. right. eexists. split; [reflexivity|].
    split; [reflexivity|]. split; lia.
  - unfold bind, ret, ask, modify_server; cbn [server log].
    eexists _, [EvTime; EvTime].
    split; [reflexivity|]. cbn [server log sessions set_last_request_time
                                min_time_between_requests last_request_time].
    split; [now rewrite <- !app_assoc|]. split; [reflexivity|].
    split; [reflexivity|]. split.
    { f_equal. rewrite !length_app. cbn. lia. }
    split; [reflexivity|]. left. now split.
Qed.

(** ** list_sessions, continued *)

(** X18: the problem summary of a listing is "No description" when the
    session has no problem description or an empty one; otherwise it is the
    first 100 characters of the description (all of it if it is shorter)
    followed by three dots, also when nothing was cut.  It never has more
    than 103 characters. *)
Theorem problem_summary_is_cut_at_100 (session : Session) :
  (truthy (problem_description session) = false ->
   problem_summary session = "No description")
  /\ (forall d,
        problem_description session = Some d -> d <> "" ->
        exists shown rest,
          d = (shown ++ rest)%string
          /\ String.length shown = Nat.min 100 (String.length d)
          /\ problem_summary session = (shown ++ "...")%string)
  /\ String.length (problem_summary session) <= 103.
Proof.
  unfold problem_summary. split; [now intros ->|]. split.
  - intros d Hd Hne. rewrite Hd.
    assert (T : truthy (Some d) = true).
    { cbn. destruct (String.eqb_spec d ""); [contradiction | reflexivity]. }
    rewrite T. cbn [str_of].
    destruct (str_take_prefix 100 d) as (rest & Hsplit & Hlen).
    exists (str_take 100 d), rest. now repeat split.
  - destruct (truthy (problem_description session)); [|cbn; lia].
    destruct (str_take_prefix 100 (str_of (problem_description session)))
      as (rest & _ & Hlen).
    rewrite length_append, Hlen. cbn [String.length]. lia.
Qed.

Lemma problem_summary_is_cut_at_100_witness :
  exists shown rest,
    "The parser loops forever" = (shown ++ rest)%string
    /\ String.length shown = 24
    /\ problem_summary (Examples.session_at 0 "s1" 0 []) = (shown ++ "...")%string.
Proof.
  refine (proj1 (proj2 (problem_summary_is_cut_at_100
                          (Examples.session_at 0 "s1" 0 [])))
                "The parser loops forever" eq_refl _).
  discriminate.
Defined.
